(** * What-If Profit/Loss bot: market-data resolution and PnL engine

    A shallow embedding of [bot.py] and the properties of its resolver,
    quote caches, degen score, what-if and portfolio arithmetic and
    position store.

    Conventions of the embedding.
    - A Python [float] is an IEEE-754 binary64 value: [spec_float] of the
      Standard Library at precision 53 and maximal exponent 1024, with the
      library's correctly rounded operations.  Numbers decoded from JSON
      (prices, market caps) are taken at that type as well.
    - A Python [str] is a [string] of ASCII characters.
    - [Optional[T]] is [option T]; an uncaught Python exception is the
      [Raise] outcome of the monad [M].
    - Module-level dictionaries and the positions file are fields of the
      explicit [world] threaded through every operation; the clock and the
      HTTP provider are an oracle indexed by the number of earlier calls. *)

From Stdlib Require Import ZArith Bool List Lia Ascii.
From Stdlib Require Import Floats.SpecFloat.
From stdpp Require Import base option list gmap strings pretty.

Local Open Scope Z_scope.

(** ** Python floats *)

Module PyFloat.

Definition prec : Z := 53.
Definition emax : Z := 1024.

Abbreviation float := spec_float.

(** An integer literal or an [int] promoted to [float]; exact below 2^53. *)
Definition of_Z (n : Z) : float := binary_normalize prec emax n 0 false.

(** The decimal literal [n / d], correctly rounded as the parser does
    ([dec 6 10] is [0.6]). *)
Definition dec (n d : Z) : float := SFdiv prec emax (of_Z n) (of_Z d).

Definition add : float -> float -> float := SFadd prec emax.
Definition sub : float -> float -> float := SFsub prec emax.
Definition mul : float -> float -> float := SFmul prec emax.
(** The quotient of a division whose divisor is not zero. *)
Definition div : float -> float -> float := SFdiv prec emax.
Definition ltb : float -> float -> bool := SFltb.
Definition leb : float -> float -> bool := SFleb.
Definition eqb : float -> float -> bool := SFeqb.
Definition abs : float -> float := SFabs.

Definition zero : float := S754_zero false.

(** [x == 0]: true of both signed zeros, false of NaN. *)
Definition is_zero (x : float) : bool := eqb x zero.

(** Truth value of a float in a condition: [x != 0.0]. *)
Definition truthy (x : float) : bool := negb (is_zero x).

(** [a >= b] and [a > b] are the mirrored comparisons. *)
Definition geb (a b : float) : bool := leb b a.
Definition gtb (a b : float) : bool := ltb b a.

(** Built-in [min(a, b)] and [max(a, b)] on two arguments: the first
    argument is kept unless the second is strictly smaller (larger). *)
Definition min (a b : float) : float := if ltb b a then b else a.
Definition max (a b : float) : float := if gtb b a then b else a.

(** Nearest integer to [n / d] for [0 < d], ties to even. *)
Definition round_half_even (n d : Z) : Z :=
  let q := n / d in
  let r := n mod d in
  match 2 * r ?= d with
  | Lt => q
  | Gt => q + 1
  | Eq => if Z.even q then q else q + 1
  end.

(** [round(x, 1)]: the exact value of [x] is rounded half-even to one
    decimal [n / 10], and that decimal is converted back to the nearest
    float.  Zeros, infinities, NaN and integral values are returned as
    they are. *)
Definition round1 (x : float) : float :=
  match x with
  | S754_finite s m e =>
      if 0 <=? e then x
      else
        match round_half_even (10 * Zpos m) (2 ^ (- e)) with
        | Zpos n => SFdiv prec emax (S754_finite s n 0) (of_Z 10)
        | _ => S754_zero s
        end
  | _ => x
  end.

(** Left-to-right accumulation [t = 0.0; for v in l: t += v]. *)
Definition fsum (l : list float) : float := fold_left add l zero.

End PyFloat.

Import PyFloat.

(** ** Degen score *)

Inductive Label :=
| BlueChip    (* "Blue-chip (low degen)" *)
| LargeCap    (* "Large-cap" *)
| MidCap      (* "Mid-cap" *)
| Microcap    (* "Microcap (high degen)" *)
| MemePit.    (* "Meme / degen pit" *)

Record DegenScore := { score : float; label : Label }.

Definition _mcap_risk_score (mcap : float) : float :=
  if geb mcap (of_Z 10000000000) then of_Z 1
  else if geb mcap (of_Z 1000000000) then of_Z 3
  else if geb mcap (of_Z 200000000) then of_Z 5
  else if geb mcap (of_Z 50000000) then of_Z 7
  else if geb mcap (of_Z 5000000) then of_Z 8
  else of_Z 10.

Definition _vol_risk_score (abs_change_24h : float) : float :=
  if ltb abs_change_24h (of_Z 2) then of_Z 2
  else if ltb abs_change_24h (of_Z 5) then of_Z 4
  else if ltb abs_change_24h (of_Z 10) then of_Z 6
  else if ltb abs_change_24h (of_Z 20) then of_Z 8
  else of_Z 10.

Definition degen_score (mcap change_24h : option float) : option DegenScore :=
  match mcap with
  | None => None
  | Some mcap =>
      let m_score := _mcap_risk_score mcap in
      let v_score :=
        match change_24h with
        | None => of_Z 6
        | Some c => _vol_risk_score (abs c)
        end in
      let score := add (mul (dec 6 10) m_score) (mul (dec 4 10) v_score) in
      let score := max (of_Z 1) (min (of_Z 10) score) in
      let label :=
        if leb score (of_Z 2) then BlueChip
        else if leb score (of_Z 4) then LargeCap
        else if leb score (of_Z 6) then MidCap
        else if leb score (of_Z 8) then Microcap
        else MemePit in
      Some {| score := round1 score; label := label |}
  end.

(** *** The claim's reading of the score, in exact integer arithmetic

    Tiers are integers and the blend is counted in tenths:
    [0.6 * m + 0.4 * v] is [(6 * m + 4 * v) / 10]. *)

Definition mcap_tier (mcap : float) : Z :=
  if leb (of_Z (10 * 10 ^ 9)) mcap then 1
  else if leb (of_Z (10 ^ 9)) mcap then 3
  else if leb (of_Z (200 * 10 ^ 6)) mcap then 5
  else if leb (of_Z (50 * 10 ^ 6)) mcap then 7
  else if leb (of_Z (5 * 10 ^ 6)) mcap then 8
  else 10.

Definition vol_tier (change_24h : option float) : Z :=
  match change_24h with
  | None => 6
  | Some c =>
      if ltb (abs c) (of_Z 2) then 2
      else if ltb (abs c) (of_Z 5) then 4
      else if ltb (abs c) (of_Z 10) then 6
      else if ltb (abs c) (of_Z 20) then 8
      else 10
  end.

Definition clamp (lo hi x : Z) : Z := Z.max lo (Z.min hi x).

Definition blend_tenths (mcap : float) (change_24h : option float) : Z :=
  clamp 10 100 (6 * mcap_tier mcap + 4 * vol_tier change_24h).

Definition label_of_tenths (t : Z) : Label :=
  if t <=? 20 then BlueChip
  else if t <=? 40 then LargeCap
  else if t <=? 60 then MidCap
  else if t <=? 80 then Microcap
  else MemePit.

Definition degen_spec (mcap : float) (change_24h : option float) : DegenScore :=
  let t := blend_tenths mcap change_24h in
  {| score := dec t 10; label := label_of_tenths t |}.

(** The tenths from 10 to 100: every value a clamped blend can take. *)
Definition tenths_range : list Z := map Z.of_nat (seq 10 91).

(** ** Python strings (ASCII) *)

Module PyStr.

Definition upper_char (c : ascii) : ascii :=
  let n := N_of_ascii c in
  if ((97 <=? n) && (n <=? 122))%N then ascii_of_N (n - 32) else c.

Definition lower_char (c : ascii) : ascii :=
  let n := N_of_ascii c in
  if ((65 <=? n) && (n <=? 90))%N then ascii_of_N (n + 32) else c.

Fixpoint map_chars (f : ascii -> ascii) (s : string) : string :=
  match s with
  | EmptyString => EmptyString
  | String c s' => String (f c) (map_chars f s')
  end.

(** [s.upper()] and [s.lower()]. *)
Definition upper : string -> string := map_chars upper_char.
Definition lower : string -> string := map_chars lower_char.

(** [c.isspace()]: tab, line feed, vertical tab, form feed, carriage
    return, the four separators 28-31 and the space. *)
Definition is_space (c : ascii) : bool :=
  let n := N_of_ascii c in
  (((9 <=? n) && (n <=? 13)) || ((28 <=? n) && (n <=? 32)))%N.

Fixpoint lstrip (s : string) : string :=
  match s with
  | EmptyString => EmptyString
  | String c s' => if is_space c then lstrip s' else s
  end.

Fixpoint rstrip (s : string) : string :=
  match s with
  | EmptyString => EmptyString
  | String c s' =>
      match rstrip s' with
      | EmptyString => if is_space c then EmptyString else String c EmptyString
      | r => String c r
      end
  end.

(** [s.strip()]. *)
Definition strip (s : string) : string := rstrip (lstrip s).

(** Truth value of a string in a condition: non-empty. *)
Definition nonempty (s : string) : bool := negb (String.eqb s "").

End PyStr.

Import PyStr.

(** ** Configuration *)

Definition PRICE_TTL : float := of_Z 20.
Definition MCAP_TTL : float := of_Z 60.

Definition CG_MAPPING : gmap string string :=
  list_to_map
    [ ("btc", "bitcoin"); ("eth", "ethereum"); ("sol", "solana");
      ("bnb", "binancecoin"); ("xrp", "ripple"); ("ada", "cardano");
      ("doge", "dogecoin"); ("ton", "the-open-network"); ("trx", "tron");
      ("matic", "matic-network"); ("avax", "avalanche-2");
      ("ltc", "litecoin"); ("uni", "uniswap"); ("link", "chainlink");
      ("atom", "cosmos"); ("near", "near"); ("arb", "arbitrum");
      ("op", "optimism"); ("sei", "sei-network");
      ("inj", "injective-protocol"); ("usdc", "usd-coin");
      ("usdt", "tether"); ("dai", "dai"); ("frax", "frax");
      ("shib", "shiba-inu"); ("pepe", "pepe"); ("bonk", "bonk");
      ("wif", "dogwifcoin"); ("flok", "floki") ]%string.

(** ** Data *)

(** A stored position: the dictionary written by [add_user_position]. *)
Record position := {
  pos_symbol : string;
  pos_amount : float;
  pos_buy_price : float;
  pos_created_at : string
}.

(** A cache entry: [{"price": value, "ts": ts}] in [PRICE_CACHE],
    [{"mcap": value, "ts": ts}] in [MCAP_CACHE]. *)
Record quote := { value : float; ts : float }.

(** A candidate of the search reply; either key may be absent. *)
Record coin := { coin_symbol : option string; coin_id : option string }.

(** The positions file: absent, present but not decodable, or holding the
    mapping from account key to position list. *)
Inductive file :=
| NoFile
| Unreadable
| Stored (data : gmap string (list position)).

(** The requests [safe_get] can be asked to make, by endpoint. *)
Inductive request :=
| Search (query : string)          (* /search, query *)
| SimplePrice (id : string)        (* /simple/price, ids, vs_currencies=usd *)
| History (id date : string)       (* /coins/{id}/history, date *)
| Markets (id : string)            (* /coins/markets, vs_currency=usd, ids *)
| CoinInfo (id : string).          (* /coins/{id} *)

Record world := {
  PRICE_CACHE : gmap string quote;
  MCAP_CACHE : gmap string quote;
  POSITIONS_FILE : file;
  clock_reads : nat;          (* calls of [time.time()] so far *)
  requests : list request     (* requests issued so far, oldest first *)
}.

(** The outside world.  Each reply is what the caller's decoding of the
    [n]-th request yields: [None] stands for every outcome the code maps to
    [None] (transport error, status other than 200, body that does not
    decode, missing or null field). *)
Record provider := {
  time_time : nat -> float;
  search_coins : nat -> string -> option (list coin);
  simple_price_usd : nat -> string -> option float;
  history_price_usd : nat -> string -> string -> option float;
  markets_market_cap : nat -> string -> option float;
  coin_name : nat -> string -> option string;
  (** [datetime.strptime(d, "%Y-%m-%d").strftime("%d-%m-%Y")], [None] on
      [ValueError]. *)
  to_cg_date : string -> option string
}.

(** ** State and exceptions *)

Inductive exn := ZeroDivisionError.

Inductive outcome (A : Type) :=
| Ok (a : A)
| Raise (e : exn).
Arguments Ok {A} a.
Arguments Raise {A} e.

(** Code that cannot raise threads the world only. *)
Definition St (A : Type) : Type := world -> A * world.
(** Code that may raise: the world survives the exception. *)
Definition M (A : Type) : Type := world -> outcome A * world.

Definition ret {A} (a : A) : St A := fun w => (a, w).
Definition bind {A B} (c : St A) (k : A -> St B) : St B :=
  fun w => let (a, w') := c w in k a w'.

Definition retM {A} (a : A) : M A := fun w => (Ok a, w).
Definition raise {A} (e : exn) : M A := fun w => (Raise e, w).
Definition bindM {A B} (c : M A) (k : A -> M B) : M B :=
  fun w =>
    match c w with
    | (Ok a, w') => k a w'
    | (Raise e, w') => (Raise e, w')
    end.
Definition lift {A} (c : St A) : M A :=
  fun w => let (a, w') := c w in (Ok a, w').

Declare Scope st_scope.
Delimit Scope st_scope with st.
Notation "'do' x <- c ; k" := (bind c (fun x => k))
  (at level 10, x name, c at level 100, k at level 200) : st_scope.
Declare Scope m_scope.
Delimit Scope m_scope with M.
Notation "'do' x <- c ; k" := (bindM c (fun x => k))
  (at level 10, x name, c at level 100, k at level 200) : m_scope.

Definition set_PRICE_CACHE (c : gmap string quote) (w : world) : world :=
  {| PRICE_CACHE := c; MCAP_CACHE := MCAP_CACHE w;
     POSITIONS_FILE := POSITIONS_FILE w;
     clock_reads := clock_reads w; requests := requests w |}.

Definition set_MCAP_CACHE (c : gmap string quote) (w : world) : world :=
  {| PRICE_CACHE := PRICE_CACHE w; MCAP_CACHE := c;
     POSITIONS_FILE := POSITIONS_FILE w;
     clock_reads := clock_reads w; requests := requests w |}.

Definition set_POSITIONS_FILE (f : file) (w : world) : world :=
  {| PRICE_CACHE := PRICE_CACHE w; MCAP_CACHE := MCAP_CACHE w;
     POSITIONS_FILE := f;
     clock_reads := clock_reads w; requests := requests w |}.

Definition tick (w : world) : world :=
  {| PRICE_CACHE := PRICE_CACHE w; MCAP_CACHE := MCAP_CACHE w;
     POSITIONS_FILE := POSITIONS_FILE w;
     clock_reads := S (clock_reads w); requests := requests w |}.

Definition sent (r : request) (w : world) : world :=
  {| PRICE_CACHE := PRICE_CACHE w; MCAP_CACHE := MCAP_CACHE w;
     POSITIONS_FILE := POSITIONS_FILE w;
     clock_reads := clock_reads w; requests := requests w ++ [r] |}.

(** [a / b] on floats. *)
Definition py_div (a b : float) : M float :=
  if is_zero b then raise ZeroDivisionError else retM (div a b).

(** ** Gateway, resolver and quote caches *)

Section Engine.

Variable P : provider.

Local Open Scope st_scope.

(** [safe_get] issues one request; the result is its serial number, at
    which the provider's reply is read. *)
Definition safe_get (r : request) : St nat :=
  fun w => (length (requests w), sent r w).

Definition time_now : St float :=
  fun w => (time_time P (clock_reads w), tick w).

(** The loop over the candidates: [Some r] when an iteration returns [r],
    [None] when the loop runs to its end. *)
Fixpoint scan_coins (sym : string) (coins : list coin) : option (option string) :=
  match coins with
  | [] => None
  | c :: rest =>
      if String.eqb (lower (default ""%string (coin_symbol c))) sym
      then Some (coin_id c)
      else scan_coins sym rest
  end.

Definition resolve_token_id (symbol : string) : St (option string) :=
  let sym := strip (lower symbol) in
  match CG_MAPPING !! sym with
  | Some id => ret (Some id)
  | None =>
      do n <- safe_get (Search sym);
      match search_coins P n sym with
      | None => ret None
      | Some [] => ret None
      | Some (c0 :: rest) =>
          match scan_coins sym (c0 :: rest) with
          | Some r => ret r
          | None => ret (coin_id c0)
          end
      end
  end.

(** [not token_id]: the identifier is [None] or the empty string. *)
Definition usable (token_id : option string) : option string :=
  match token_id with
  | Some id => if nonempty id then Some id else None
  | None => None
  end.

Definition get_token_name (symbol : string) : St (option string) :=
  do token_id <- resolve_token_id symbol;
  match usable token_id with
  | None => ret None
  | Some id =>
      do n <- safe_get (CoinInfo id);
      ret (coin_name P n id)
  end.

Definition get_current_price_usd (symbol : string) : St (option float) :=
  let sym_up := upper symbol in
  do now <- time_now;
  fun w =>
    let fetch : St (option float) :=
      do token_id <- resolve_token_id symbol;
      match usable token_id with
      | None => ret None
      | Some id =>
          do n <- safe_get (SimplePrice id);
          match simple_price_usd P n id with
          | None => ret None
          | Some price =>
              fun w' =>
                (Some price,
                 set_PRICE_CACHE
                   (<[sym_up := {| value := price; ts := now |}]> (PRICE_CACHE w')) w')
          end
      end in
    match PRICE_CACHE w !! sym_up with
    | Some cached =>
        if ltb (sub now (ts cached)) PRICE_TTL
        then (Some (value cached), w)
        else fetch w
    | None => fetch w
    end.

Definition get_historical_price_usd (symbol date_str : string) : St (option float) :=
  do token_id <- resolve_token_id symbol;
  match usable token_id with
  | None => ret None
  | Some id =>
      match to_cg_date P date_str with
      | None => ret None
      | Some cg_date =>
          do n <- safe_get (History id cg_date);
          ret (history_price_usd P n id cg_date)
      end
  end.

Definition get_token_market_cap (symbol : string) : St (option float) :=
  let sym_up := upper symbol in
  do now <- time_now;
  fun w =>
    let fetch : St (option float) :=
      do token_id <- resolve_token_id symbol;
      match usable token_id with
      | None => ret None
      | Some id =>
          do n <- safe_get (Markets id);
          match markets_market_cap P n id with
          | None => ret None
          | Some mcap =>
              fun w' =>
                (Some mcap,
                 set_MCAP_CACHE
                   (<[sym_up := {| value := mcap; ts := now |}]> (MCAP_CACHE w')) w')
          end
      end in
    match MCAP_CACHE w !! sym_up with
    | Some cached =>
        if ltb (sub now (ts cached)) MCAP_TTL
        then (Some (value cached), w)
        else fetch w
    | None => fetch w
    end.

End Engine.

(** ** Position store *)

(** [str(user_id)]. *)
Definition user_key (user_id : Z) : string := pretty user_id.

Section Store.

Local Open Scope st_scope.

(** A missing or undecodable file reads as the empty mapping. *)
Definition load_all_positions : St (gmap string (list position)) :=
  fun w =>
    (match POSITIONS_FILE w with
     | Stored data => data
     | NoFile | Unreadable => ∅
     end, w).

(** The whole mapping replaces the file's content. *)
Definition save_all_positions (data : gmap string (list position)) : St unit :=
  fun w => (tt, set_POSITIONS_FILE (Stored data) w).

(** [created_at] is the caller's reading of [datetime.utcnow()]. *)
Definition add_user_position (user_id : Z) (symbol : string)
    (amount buy_price : float) (created_at : string) : St unit :=
  do all_data <- load_all_positions;
  let key := user_key user_id in
  let entry := {| pos_symbol := upper symbol; pos_amount := amount;
                  pos_buy_price := buy_price; pos_created_at := created_at |} in
  save_all_positions (<[key := default [] (all_data !! key) ++ [entry]]> all_data).

Definition get_user_positions (user_id : Z) : St (list position) :=
  do all_data <- load_all_positions;
  ret (default [] (all_data !! user_key user_id)).

Inductive clear_reply :=
| ClearNoUser       (* "Could not get your user ID." *)
| Cleared           (* "Your entire portfolio has been cleared." *)
| ClearNothing.     (* "You don't have any saved positions yet." *)

Definition clear (user : option Z) : St clear_reply :=
  match user with
  | None => ret ClearNoUser
  | Some user_id =>
      do all_data <- load_all_positions;
      let key := user_key user_id in
      match all_data !! key with
      | Some (_ :: _) =>
          do _ <- save_all_positions (<[key := []]> all_data);
          ret Cleared
      | Some [] | None => ret ClearNothing
      end
  end.

Inductive remove_reply :=
| RemoveUsage                       (* "Usage: /remove SYMBOL ..." *)
| RemoveNoUser                      (* "Could not get your user ID." *)
| RemoveNoMatch (symbol : string)   (* "No SYMBOL positions found ..." *)
| RemovedAll (symbol : string).     (* "Removed all SYMBOL positions ..." *)

Definition remove (args : list string) (user : option Z) : St remove_reply :=
  match args with
  | [arg] =>
      let symbol := upper arg in
      match user with
      | None => ret RemoveNoUser
      | Some user_id =>
          do all_data <- load_all_positions;
          let key := user_key user_id in
          let positions := default [] (all_data !! key) in
          let new_positions := filter (fun p => pos_symbol p ≠ symbol) positions in
          if Nat.eqb (length new_positions) (length positions)
          then ret (RemoveNoMatch symbol)
          else
            do _ <- save_all_positions (<[key := new_positions]> all_data);
            ret (RemovedAll symbol)
      end
  | _ => ret RemoveUsage
  end.

End Store.

(** ** PnL engine *)

Record WhatIfResult := {
  wi_name : string;
  wi_symbol : string;
  wi_usd_amount : float;
  wi_tokens : float;
  wi_buy_price : float;
  wi_buy_date : string;
  wi_current_price : float;
  wi_initial_value : float;
  wi_current_value : float;
  wi_profit_abs : float;
  wi_profit_pct : float
}.

(** The sign marker of a profit: green, red or white circle. *)
Inductive trend := Gain | Loss | Even.

Definition trend_of (profit : float) : trend :=
  if gtb profit zero then Gain else if ltb profit zero then Loss else Even.

(** The values one loop iteration of [portfolio] computes and renders
    ([initial_value] is computed but not printed). *)
Record pnl_line := {
  ln_idx : nat;
  ln_sym : string;
  ln_amount : float;
  ln_buy_price : float;
  ln_current_price : float;
  ln_initial_value : float;
  ln_current_value : float;
  ln_profit_abs : float;
  ln_profit_pct : float;
  ln_trend : trend
}.

Record summary := {
  total_initial : float;
  total_current : float;
  total_profit : float;
  total_pct : float;
  total_trend : trend;
  lines : list pnl_line
}.

Inductive portfolio_reply :=
| PortfolioNoUser                 (* "Could not get your user ID." *)
| PortfolioEmpty                  (* "You have no positions yet. ..." *)
| PortfolioSummary (s : summary).

Section PnL.

Variable P : provider.

Local Open Scope m_scope.

(** [(profit / denom * 100) if denom else 0], the conditional expression
    of [calc_what_if_date] and, with the test spelled [denom != 0], of
    [portfolio]; the literal [0] is taken as the float zero. *)
Definition pct_or_zero (profit denom : float) : M float :=
  if truthy denom
  then do q <- py_div profit denom; retM (mul q (of_Z 100))
  else retM zero.

Definition calc_what_if_date (symbol : string) (usd_amount : float)
    (date_str : string) : M (option WhatIfResult) :=
  do buy_price <- lift (get_historical_price_usd P symbol date_str);
  match buy_price with
  | None => retM None
  | Some buy_price =>
      do current <- lift (get_current_price_usd P symbol);
      match current with
      | None => retM None
      | Some current =>
          do tokens <- py_div usd_amount buy_price;
          let current_value := mul tokens current in
          let profit := sub current_value usd_amount in
          do pct <- pct_or_zero profit usd_amount;
          do name <- lift (get_token_name P symbol);
          retM (Some {|
            wi_name := match name with
                       | Some n => if nonempty n then n else upper symbol
                       | None => upper symbol
                       end;
            wi_symbol := upper symbol;
            wi_usd_amount := usd_amount;
            wi_tokens := tokens;
            wi_buy_price := buy_price;
            wi_buy_date := date_str;
            wi_current_price := current;
            wi_initial_value := usd_amount;
            wi_current_value := current_value;
            wi_profit_abs := profit;
            wi_profit_pct := pct |})
      end
  end.

(** The body of [for idx, pos in enumerate(positions, start=1)], from
    index [idx] on, over the three accumulators. *)
Fixpoint portfolio_loop (idx : nat) (positions : list position)
    (total_initial total_current : float) (lines : list pnl_line)
    : M (float * float * list pnl_line) :=
  match positions with
  | [] => retM (total_initial, total_current, lines)
  | pos :: rest =>
      let sym := pos_symbol pos in
      let amount := pos_amount pos in
      let buy_price := pos_buy_price pos in
      do current_price <- lift (get_current_price_usd P sym);
      match current_price with
      | None => portfolio_loop (S idx) rest total_initial total_current lines
      | Some current_price =>
          let initial_value := mul amount buy_price in
          let current_value := mul amount current_price in
          let profit_abs := sub current_value initial_value in
          do profit_pct <- pct_or_zero profit_abs initial_value;
          let line := {|
            ln_idx := idx; ln_sym := sym; ln_amount := amount;
            ln_buy_price := buy_price; ln_current_price := current_price;
            ln_initial_value := initial_value;
            ln_current_value := current_value;
            ln_profit_abs := profit_abs; ln_profit_pct := profit_pct;
            ln_trend := trend_of profit_abs |} in
          portfolio_loop (S idx) rest
            (add total_initial initial_value)
            (add total_current current_value)
            (lines ++ [line])
      end
  end.

Definition portfolio (user : option Z) : M portfolio_reply :=
  match user with
  | None => retM PortfolioNoUser
  | Some user_id =>
      do positions <- lift (get_user_positions user_id);
      match positions with
      | [] => retM PortfolioEmpty
      | _ :: _ =>
          do acc <- portfolio_loop 1%nat positions zero zero [];
          let '(total_initial, total_current, lines) := acc in
          let total_profit := sub total_current total_initial in
          do total_pct <- pct_or_zero total_profit total_initial;
          retM (PortfolioSummary {|
            total_initial := total_initial;
            total_current := total_current;
            total_profit := total_profit;
            total_pct := total_pct;
            total_trend := trend_of total_profit;
            lines := lines |})
      end
  end.

End PnL.

(** ** Definitions the statements are phrased with *)

(** A candidate whose symbol equals the normalised query, whatever the
    case of the candidate's symbol. *)
Definition symbol_matches (sym : string) (c : coin) : bool :=
  String.eqb (lower (default ""%string (coin_symbol c))) sym.

(** ** Quote caches *)

(** The requests issued between two worlds of one run. *)
Definition issued (w w' : world) : list request :=
  drop (length (requests w)) (requests w').

Definition is_price_fetch (r : request) : bool :=
  match r with SimplePrice _ => true | _ => false end.

Definition is_mcap_fetch (r : request) : bool :=
  match r with Markets _ => true | _ => false end.

Definition count_fetches (kind : request -> bool) (l : list request) : nat :=
  length (List.filter kind l).

(** What one lookup through a quote cache does when the symbol has an
    entry [q]: the reading of the amended claim C3, for the cache [cache]
    with its [ttl], lookup function, fetch endpoint and the provider's
    reply at that endpoint. *)
Definition ttl_cache_law (P : provider) (cache : world -> gmap string quote)
    (ttl : float) (lookup : string -> St (option float))
    (endpoint : string -> request) (kind : request -> bool)
    (reply : nat -> string -> option float)
    (symbol : string) (w : world) (q : quote) : Prop :=
  let now := time_time P (clock_reads w) in
  let r := fst (lookup symbol w) in
  let w' := snd (lookup symbol w) in
  let tid := fst (resolve_token_id P symbol (tick w)) in
  let w1 := snd (resolve_token_id P symbol (tick w)) in
  if ltb (sub now (ts q)) ttl
  then r = Some (value q) /\ w' = tick w /\ issued w w' = []
  else
    match usable tid with
    | None => r = None /\ w' = w1 /\ count_fetches kind (issued w w') = 0%nat
    | Some id =>
        count_fetches kind (issued w w') = 1%nat /\
        requests w' = requests w1 ++ [endpoint id] /\
        match reply (length (requests w1)) id with
        | Some x =>
            r = Some x /\
            cache w' = <[upper symbol := {| value := x; ts := now |}]> (cache w)
        | None => r = None /\ cache w' = cache w
        end
    end.

(** The lookup finds no entry younger than the TTL, and then resolution
    or the fetch fails: the reading of the amended claim C4. *)
Definition failed_refresh_law (P : provider) (cache : world -> gmap string quote)
    (ttl : float) (lookup : string -> St (option float))
    (reply : nat -> string -> option float)
    (symbol : string) (w : world) : Prop :=
  let now := time_time P (clock_reads w) in
  let tid := fst (resolve_token_id P symbol (tick w)) in
  let w1 := snd (resolve_token_id P symbol (tick w)) in
  (forall q, cache w !! upper symbol = Some q ->
             ltb (sub now (ts q)) ttl = false) ->
  match usable tid with
  | None => True
  | Some id => reply (length (requests w1)) id = None
  end ->
  fst (lookup symbol w) = None /\
  PRICE_CACHE (snd (lookup symbol w)) = PRICE_CACHE w /\
  MCAP_CACHE (snd (lookup symbol w)) = MCAP_CACHE w.

(** *** The refresh path of each cache, as one function of the world *)

Section Refresh.

Variable P : provider.

(** A miss of the price cache, run from the world left by the clock
    reading at which [now] was taken. *)
Definition refresh_price (symbol : string) (now : float) (w : world)
    : option float * world :=
  let tid := fst (resolve_token_id P symbol w) in
  let w1 := snd (resolve_token_id P symbol w) in
  match usable tid with
  | None => (None, w1)
  | Some id =>
      let w2 := sent (SimplePrice id) w1 in
      match simple_price_usd P (length (requests w1)) id with
      | None => (None, w2)
      | Some x =>
          (Some x,
           set_PRICE_CACHE
             (<[upper symbol := {| value := x; ts := now |}]> (PRICE_CACHE w2)) w2)
      end
  end.

Definition refresh_mcap (symbol : string) (now : float) (w : world)
    : option float * world :=
  let tid := fst (resolve_token_id P symbol w) in
  let w1 := snd (resolve_token_id P symbol w) in
  match usable tid with
  | None => (None, w1)
  | Some id =>
      let w2 := sent (Markets id) w1 in
      match markets_market_cap P (length (requests w1)) id with
      | None => (None, w2)
      | Some x =>
          (Some x,
           set_MCAP_CACHE
             (<[upper symbol := {| value := x; ts := now |}]> (MCAP_CACHE w2)) w2)
      end
  end.

End Refresh.

(** ** PnL arithmetic as the specification words it *)

(** [profitPct = profitAbs / denominator * 100], and 0 when the
    denominator is 0. *)
Definition pct_of (profit denom : float) : float :=
  if is_zero denom then zero else mul (div profit denom) (of_Z 100).

(** The display name: the looked-up name, or the uppercased symbol. *)
Definition display_name (name : option string) (symbol : string) : string :=
  match name with
  | Some n => if nonempty n then n else upper symbol
  | None => upper symbol
  end.

Definition what_if_of (symbol : string) (usd_amount : float) (date_str : string)
    (historical_price current_price : float) (name : option string)
    : WhatIfResult :=
  let tokens := div usd_amount historical_price in
  let current_value := mul tokens current_price in
  let profit_abs := sub current_value usd_amount in
  {| wi_name := display_name name symbol;
     wi_symbol := upper symbol;
     wi_usd_amount := usd_amount;
     wi_tokens := tokens;
     wi_buy_price := historical_price;
     wi_buy_date := date_str;
     wi_current_price := current_price;
     wi_initial_value := usd_amount;
     wi_current_value := current_value;
     wi_profit_abs := profit_abs;
     wi_profit_pct := pct_of profit_abs usd_amount |}.

(** The line of the position numbered [idx] priced at [current_price]. *)
Definition line_of (idx : nat) (pos : position) (current_price : float) : pnl_line :=
  let initial_value := mul (pos_amount pos) (pos_buy_price pos) in
  let current_value := mul (pos_amount pos) current_price in
  let profit_abs := sub current_value initial_value in
  {| ln_idx := idx; ln_sym := pos_symbol pos; ln_amount := pos_amount pos;
     ln_buy_price := pos_buy_price pos; ln_current_price := current_price;
     ln_initial_value := initial_value; ln_current_value := current_value;
     ln_profit_abs := profit_abs;
     ln_profit_pct := pct_of profit_abs initial_value;
     ln_trend := trend_of profit_abs |}.

(** The current-price lookups of the positions, in order, each from the
    world the previous one left. *)
Fixpoint price_trace (P : provider) (positions : list position) (w : world)
    : list (option float) * world :=
  match positions with
  | [] => ([], w)
  | pos :: rest =>
      let r := get_current_price_usd P (pos_symbol pos) w in
      let t := price_trace P rest (snd r) in
      (fst r :: fst t, snd t)
  end.

(** The lines of the successfully priced positions, numbered from [idx]. *)
Fixpoint priced_lines (idx : nat) (positions : list position)
    (prices : list (option float)) : list pnl_line :=
  match positions, prices with
  | pos :: rest, Some p :: ps => line_of idx pos p :: priced_lines (S idx) rest ps
  | _ :: rest, None :: ps => priced_lines (S idx) rest ps
  | _, _ => []
  end.

(** Totals over the lines, profit and percentage by the same formulas. *)
Definition summary_of (ls : list pnl_line) : summary :=
  let ti := fsum (map ln_initial_value ls) in
  let tc := fsum (map ln_current_value ls) in
  {| total_initial := ti; total_current := tc;
     total_profit := sub tc ti; total_pct := pct_of (sub tc ti) ti;
     total_trend := trend_of (sub tc ti); lines := ls |}.

(** ** Scenarios used to exercise the statements *)

Module Scenario.

Local Open Scope string_scope.

Definition w0 : world :=
  {| PRICE_CACHE := ∅; MCAP_CACHE := ∅; POSITIONS_FILE := NoFile;
     clock_reads := 0; requests := [] |}.

(** A provider whose replies do not depend on when they are asked: the
    clock reads [t0 + 30 * n] seconds at its [n]-th reading. *)
Definition steady (found : string -> option (list coin))
    (price past mcap : string -> option float) : provider :=
  {| time_time := fun n => of_Z (1700000000 + 30 * Z.of_nat n);
     search_coins := fun _ q => found q;
     simple_price_usd := fun _ id => price id;
     history_price_usd := fun _ id _ => past id;
     markets_market_cap := fun _ id => mcap id;
     coin_name := fun _ id => if String.eqb id "bitcoin" then Some "Bitcoin" else None;
     to_cg_date := fun d => if String.eqb d "2023-01-01" then Some "01-01-2023" else None |}.

Definition wbt_candidates : list coin :=
  [ {| coin_symbol := Some "WBTC"; coin_id := Some "wrapped-bitcoin" |};
    {| coin_symbol := Some "WBT"; coin_id := Some "whitebit" |};
    {| coin_symbol := Some "wbt"; coin_id := Some "other-wbt" |} ].

Definition search_wbt (q : string) : option (list coin) :=
  if String.eqb q "wbt" then Some wbt_candidates
  else if String.eqb q "wb" then Some wbt_candidates
  else if String.eqb q "zzz" then Some []
  else None.

Definition no_quote (_ : string) : option float := None.
Definition quote_of (x : float) (_ : string) : option float := Some x.

(** Historical price 10, current price 20. *)
Definition doubling : provider :=
  steady search_wbt (quote_of (of_Z 20)) (quote_of (of_Z 10)) no_quote.

(** Historical price 0, current price 20. *)
Definition worthless_then : provider :=
  steady search_wbt (quote_of (of_Z 20)) (quote_of (of_Z 0)) no_quote.

(** Every quote request fails. *)
Definition outage : provider :=
  steady search_wbt no_quote no_quote no_quote.

End Scenario.

(** ** Further scenarios: cached quotes and a stored book *)

Module Cases.

Import Scenario.
Local Open Scope string_scope.

(** 100 seconds, and 5 seconds, before the first clock reading of a
    [steady] provider. *)
Definition long_ago : float := of_Z 1699999900.
Definition just_now : float := of_Z 1699999995.

Definition cached_price (key : string) (x t : float) : world :=
  set_PRICE_CACHE {[ key := {| value := x; ts := t |} ]} w0.

Definition cached_mcap (key : string) (x t : float) : world :=
  set_MCAP_CACHE {[ key := {| value := x; ts := t |} ]} w0.

(** Bitcoin and Ethereum are quoted, nothing else is. *)
Definition patchy_price (id : string) : option float :=
  if String.eqb id "bitcoin" then Some (of_Z 30000)
  else if String.eqb id "ethereum" then Some (of_Z 2000)
  else None.

Definition patchy : provider :=
  steady search_wbt patchy_price (quote_of (of_Z 10)) (quote_of (of_Z 900000000)).

(** Account 42 holds BTC, SOL, a free ETH and a second SOL; account 7
    holds SOL. *)
Definition book : world :=
  snd (add_user_position 7 "sol" (of_Z 3) (of_Z 20) "2024-01-05T00:00:00Z"
  (snd (add_user_position 42 "Sol" (of_Z 1) (of_Z 95) "2024-01-04T00:00:00Z"
  (snd (add_user_position 42 "eth" (of_Z 2) (of_Z 0) "2024-01-03T00:00:00Z"
  (snd (add_user_position 42 "sol" (of_Z 10) (of_Z 80) "2024-01-02T00:00:00Z"
  (snd (add_user_position 42 "btc" (dec 5 10) (of_Z 20000) "2024-01-01T00:00:00Z"
         w0))))))))).

End Cases.

(** * Further definitions: formatting, handlers, request kinds *)

Definition is_search (r : request) : bool :=
  match r with Search _ => true | _ => false end.

Definition is_history (r : request) : bool :=
  match r with History _ _ => true | _ => false end.

Definition is_coin_info (r : request) : bool :=
  match r with CoinInfo _ => true | _ => false end.

(** The provider [p] with a clock that advances 5 seconds per reading. *)
Definition brisk (p : provider) : provider :=
  {| time_time := fun n => of_Z (1700000000 + 5 * Z.of_nat n);
     search_coins := search_coins p;
     simple_price_usd := simple_price_usd p;
     history_price_usd := history_price_usd p;
     markets_market_cap := markets_market_cap p;
     coin_name := coin_name p;
     to_cg_date := to_cg_date p |}.

(** ** Formatting *)

Module PyFormat.

(** The decimal digits of a non-negative integer. *)
Definition digits (n : Z) : string := pretty (Z.to_N n).

Definition sign_text (s : bool) : string := (if s then "-" else "")%string.

(** The exact value of [m * 2^e] scaled by [scale] and rounded half-even
    to an integer. *)
Definition scaled_round (scale : Z) (m : positive) (e : Z) : Z :=
  if 0 <=? e then scale * Zpos m * 2 ^ e
  else round_half_even (scale * Zpos m) (2 ^ (- e)).

(** [format(x, ".0f")]. *)
Definition fixed0 (x : float) : string :=
  match x with
  | S754_nan => "nan"%string
  | S754_infinity s => sign_text s +:+ "inf"
  | S754_zero s => sign_text s +:+ "0"
  | S754_finite s m e => sign_text s +:+ digits (scaled_round 1 m e)
  end.

(** [format(x, ".1f")]. *)
Definition fixed1 (x : float) : string :=
  match x with
  | S754_nan => "nan"%string
  | S754_infinity s => sign_text s +:+ "inf"
  | S754_zero s => sign_text s +:+ "0.0"
  | S754_finite s m e =>
      let n := scaled_round 10 m e in
      sign_text s +:+ digits (n / 10) +:+ "." +:+ digits (n mod 10)
  end.

End PyFormat.

Import PyFormat.

(** The divisors of [format_mcap] are non-zero literals, so its divisions
    cannot raise. *)
Definition format_mcap (value : option float) : string :=
  match value with
  | None => "N/A"%string
  | Some v =>
      if geb v (of_Z 1000000000)
      then "$" +:+ fixed1 (div v (of_Z 1000000000)) +:+ "B"
      else if geb v (of_Z 1000000)
      then "$" +:+ fixed1 (div v (of_Z 1000000)) +:+ "M"
      else if geb v (of_Z 1000)
      then "$" +:+ fixed1 (div v (of_Z 1000)) +:+ "K"
      else "$" +:+ fixed0 v
  end.

(** ** The arithmetic of the all-time-high report *)

(** [-x]. *)
Definition neg (x : float) : float := SFopp x.

(** [(current_price / ath_price - 1) * 100 if ath_price and ath_price > 0
    else 0.0], over the decoded fields; a null [ath_price] is [None]. *)
Definition ath_diff_pct (ath_price : option float) (current_price : float) : M float :=
  match ath_price with
  | Some a =>
      if truthy a && gtb a zero
      then bindM (py_div current_price a)
             (fun q => retM (mul (sub q (of_Z 1)) (of_Z 100)))
      else retM zero
  | None => retM zero
  end.

(** The line of the report that places the current price against the ATH. *)
Inductive ath_position :=
| BelowATH (pct : float)    (* "Currently pct% below ATH" *)
| AboveATH (pct : float)    (* "Currently pct% ABOVE ATH" *)
| NoPositionLine.

Definition ath_position_of (diff_pct : float) : ath_position :=
  if ltb diff_pct zero then BelowATH (neg diff_pct)
  else if gtb diff_pct zero then AboveATH diff_pct
  else NoPositionLine.

(** ** Command handlers for what-if and add-position *)

Inductive whatif_reply :=
| WhatIfUsage          (* "Usage: /whatifdate SYMBOL USD_AMOUNT YYYY-MM-DD ..." *)
| WhatIfNotNumber      (* "USD amount must be a number." *)
| WhatIfBadDate        (* "Date must be YYYY-MM-DD." *)
| WhatIfUnavailable    (* "Could not fetch historical/current price." *)
| WhatIfReport (res : WhatIfResult) (mcap : option float)
    (mcap_text : string) (d : option DegenScore) (t : trend).

Inductive addpos_reply :=
| AddUsage             (* "Usage: /addpos SYMBOL AMOUNT BUY_PRICE ..." *)
| AddNotNumber         (* "Amount and buy price must be numbers." *)
| AddNoUser            (* "Could not get your user ID." *)
| AddSaved (amount : float) (symbol : string) (buy_price : float).

Section Handlers.

Variable P : provider.

(** [float(s)]: the parsed number, [None] on [ValueError]. *)
Variable float_of_string : string -> option float.

Definition whatifdate (args : list string) : M whatif_reply :=
  match args with
  | [symbol; amount_text; date_str] =>
      match float_of_string amount_text with
      | None => retM WhatIfNotNumber
      | Some usd_amount =>
          match to_cg_date P date_str with
          | None => retM WhatIfBadDate
          | Some _ =>
              bindM (calc_what_if_date P symbol usd_amount date_str) (fun res =>
              match res with
              | None => retM WhatIfUnavailable
              | Some res =>
                  bindM (lift (get_token_market_cap P (wi_symbol res))) (fun mcap =>
                  let d := degen_score mcap None in
                  retM (WhatIfReport res mcap (format_mcap mcap) d
                          (trend_of (wi_profit_abs res))))
              end)
          end
      end
  | _ => retM WhatIfUsage
  end.

(** [created_at] is the handler's reading of [datetime.utcnow()]. *)
Definition addpos (args : list string) (user : option Z) (created_at : string)
    : St addpos_reply :=
  match args with
  | [symbol; amount_text; price_text] =>
      match float_of_string amount_text with
      | None => ret AddNotNumber
      | Some amount =>
          match float_of_string price_text with
          | None => ret AddNotNumber
          | Some buy_price =>
              match user with
              | None => ret AddNoUser
              | Some user_id =>
                  bind (add_user_position user_id symbol amount buy_price created_at)
                    (fun _ => ret (AddSaved amount (upper symbol) buy_price))
              end
          end
      end
  | _ => ret AddUsage
  end.

End Handlers.

(** The label the thresholds give to a score. *)
Definition label_of_score (s : float) : Label :=
  if leb s (of_Z 2) then BlueChip
  else if leb s (of_Z 4) then LargeCap
  else if leb s (of_Z 6) then MidCap
  else if leb s (of_Z 8) then Microcap
  else MemePit.

(** The integers from [lo], [count] of them. *)
Definition Z_range (lo count : Z) : list Z :=
  map (fun i => lo + Z.of_nat i) (seq 0 (Z.to_nat count)).

(** ["<t / 10>.<t mod 10>"], the tenths [t] written with one decimal. *)
Definition one_decimal (t : Z) : string :=
  digits (t / 10) +:+ "." +:+ digits (t mod 10).

(** What [lstrip] leaves does not begin with white space. *)
Definition starts_clean (s : string) : Prop :=
  match s with
  | EmptyString => True
  | String c _ => is_space c = false
  end.

(** * Properties *)

(** ** Order facts on floats *)

Section FloatOrder.

Local Ltac cmp_cases :=
  repeat match goal with
  | |- context [Z.compare ?a ?b] => destruct (Z.compare_spec a b)
  | H : context [Z.compare ?a ?b] |- _ => destruct (Z.compare_spec a b)
  | |- context [Pos.compare ?a ?b] => destruct (Pos.compare_spec a b)
  | H : context [Pos.compare ?a ?b] |- _ => destruct (Pos.compare_spec a b)
  end.

Local Ltac float_order :=
  unfold leb, ltb, SFleb, SFltb, SFcompare;
  intros;
  repeat match goal with x : float |- _ => destruct x as [[]|[]| |[] ? ?] end;
  simpl in *; try reflexivity; try discriminate;
  change (Pos.compare_cont Eq) with Pos.compare in *;
  cmp_cases; subst; simpl in *;
  try reflexivity; try discriminate; try lia.

Lemma leb_trans (a b c : float) :
  leb a b = true -> leb b c = true -> leb a c = true.
Proof. revert a b c. float_order. Qed.

Lemma leb_ltb_trans (a b c : float) :
  leb a b = true -> ltb b c = true -> ltb a c = true.
Proof. revert a b c. float_order. Qed.

Lemma ltb_not_leb (a b : float) : ltb a b = true -> leb b a = false.
Proof. revert a b. float_order. Qed.

End FloatOrder.

(** ** The score computed in floats agrees with the exact reading *)

Section DegenFacts.

Lemma mcap_tier_cases (m : float) : In (mcap_tier m) [1; 3; 5; 7; 8; 10].
Proof.
  unfold mcap_tier.
  repeat match goal with |- context [if ?b then _ else _] => destruct b end;
    simpl; tauto.
Qed.

Lemma vol_tier_cases (c : option float) : In (vol_tier c) [2; 4; 6; 8; 10].
Proof.
  unfold vol_tier. destruct c as [c|]; [|simpl; tauto].
  repeat match goal with |- context [if ?b then _ else _] => destruct b end;
    simpl; tauto.
Qed.

Lemma mcap_score_tier (m : float) : _mcap_risk_score m = of_Z (mcap_tier m).
Proof.
  unfold _mcap_risk_score, mcap_tier, geb.
  change (10 * 10 ^ 9) with 10000000000.
  change (10 ^ 9) with 1000000000.
  change (200 * 10 ^ 6) with 200000000.
  change (50 * 10 ^ 6) with 50000000.
  change (5 * 10 ^ 6) with 5000000.
  repeat match goal with |- context [if ?b then _ else _] => destruct b end;
    reflexivity.
Qed.

Lemma vol_score_tier (c : float) :
  _vol_risk_score (abs c) = of_Z (vol_tier (Some c)).
Proof.
  unfold _vol_risk_score, vol_tier.
  repeat match goal with |- context [if ?b then _ else _] => destruct b end;
    reflexivity.
Qed.

Lemma mcap_tier_mono (m1 m2 : float) :
  leb m1 m2 = true -> mcap_tier m2 <= mcap_tier m1.
Proof.
  intros Hle. unfold mcap_tier.
  repeat match goal with
  | |- context [if leb ?c m1 then _ else _] => destruct (leb c m1) eqn:?
  end;
  repeat match goal with
  | H : leb ?c m1 = true |- _ => apply (fun h => leb_trans _ _ _ h Hle) in H
  end;
  repeat match goal with
  | H : leb ?c m2 = _ |- _ => rewrite H
  | |- context [if leb ?c m2 then _ else _] => destruct (leb c m2) eqn:?
  end; lia.
Qed.

Lemma vol_tier_mono (c1 c2 : float) :
  leb (abs c1) (abs c2) = true -> vol_tier (Some c1) <= vol_tier (Some c2).
Proof.
  intros Hle. unfold vol_tier.
  repeat match goal with
  | |- context [if ltb (abs c2) ?c then _ else _] =>
      destruct (ltb (abs c2) c) eqn:?
  end;
  repeat match goal with
  | H : ltb (abs c2) ?c = true |- _ => apply (leb_ltb_trans _ _ _ Hle) in H
  end;
  repeat match goal with
  | H : ltb (abs c1) ?c = _ |- _ => rewrite H
  | |- context [if ltb (abs c1) ?c then _ else _] =>
      destruct (ltb (abs c1) c) eqn:?
  end; lia.
Qed.

(** Every reachable pair of tiers, computed once in floats. *)
Lemma degen_score_table (m : float) (c : option float) :
  degen_score (Some m) c = Some (degen_spec m c).
Proof.
  unfold degen_score, degen_spec, blend_tenths.
  rewrite mcap_score_tier.
  assert (Hv : match c with
               | Some c0 => _vol_risk_score (abs c0)
               | None => of_Z 6
               end = of_Z (vol_tier c))
    by (destruct c; [apply vol_score_tier | reflexivity]).
  rewrite Hv. clear Hv.
  pose proof (mcap_tier_cases m) as Hm.
  pose proof (vol_tier_cases c) as Hc.
  generalize dependent (vol_tier c). generalize dependent (mcap_tier m).
  intros tm Hm tv Hv. simpl in Hm, Hv.
  repeat match goal with
  | H : _ \/ _ |- _ => destruct H
  | H : False |- _ => destruct H
  end; subst tm tv; vm_compute; reflexivity.
Qed.

Lemma tenths_range_spec (t : Z) : 10 <= t <= 100 -> In t tenths_range.
Proof.
  intros Ht. unfold tenths_range. apply in_map_iff.
  exists (Z.to_nat t). split; [lia|]. apply in_seq. lia.
Qed.

(** One decimal after the point, between 1.0 and 10.0, read back as a
    float, keeps the order of the tenths. *)
Lemma dec10_mono (t1 t2 : Z) :
  10 <= t1 -> t1 <= t2 -> t2 <= 100 -> leb (dec t1 10) (dec t2 10) = true.
Proof.
  intros H1 H12 H2.
  assert (Hall : forallb (fun a => forallb (fun b =>
            implb (a <=? b) (leb (dec a 10) (dec b 10)))
            tenths_range) tenths_range = true) by (vm_compute; reflexivity).
  rewrite forallb_forall in Hall.
  specialize (Hall t1 (tenths_range_spec t1 ltac:(lia))).
  rewrite forallb_forall in Hall.
  specialize (Hall t2 (tenths_range_spec t2 ltac:(lia))).
  destruct (Z.leb_spec t1 t2); [exact Hall | lia].
Qed.

Lemma blend_tenths_range (m : float) (c : option float) :
  10 <= blend_tenths m c <= 100.
Proof. unfold blend_tenths, clamp. lia. Qed.

End DegenFacts.

(** C6. The degen score is null exactly when the market cap is unknown.
    Otherwise the market-cap tier is 1 from 10B, 3 from 1B, 5 from 200M, 7
    from 50M, 8 from 5M and 10 below; the volatility tier of [abs change24h]
    is 2 below 2, 4 below 5, 6 below 10, 8 below 20 and 10 from there, and 6
    when the change is unknown; the returned score is
    [clamp (0.6 * mcapScore + 0.4 * volScore) 1 10] to one decimal, and the
    label is blue-chip up to 2, large-cap up to 4, mid-cap up to 6, microcap
    up to 8 and meme/degen above, each upper bound included. *)
Theorem C6_degen_score_tiers_blend_label :
  (forall mcap change, degen_score mcap change = None <-> mcap = None) /\
  (forall m change,
     degen_score (Some m) change =
       Some {| score := dec (clamp 10 100 (6 * mcap_tier m + 4 * vol_tier change)) 10;
               label := label_of_tenths
                          (clamp 10 100 (6 * mcap_tier m + 4 * vol_tier change)) |}) /\
  (forall m, _mcap_risk_score m = of_Z (mcap_tier m)) /\
  (forall c, _vol_risk_score (abs c) = of_Z (vol_tier (Some c))).
Proof.
  split; [|split; [|split]].
  - intros [m|] change.
    + rewrite degen_score_table. split; discriminate.
    + split; reflexivity.
  - intros m change. apply degen_score_table.
  - apply mcap_score_tier.
  - apply vol_score_tier.
Qed.

(** A 1.3T market cap moving 1.5% in a day: tiers 1 and 2, score 1.4. *)
Example degen_score_large_quiet :
  degen_score (Some (of_Z 1300000000000)) (Some (dec (-15) 10)) =
    Some {| score := dec 14 10; label := BlueChip |}.
Proof. vm_compute. reflexivity. Qed.

(** Exactly 5M with an unknown change: tiers 8 and 6, score 7.2. *)
Example degen_score_edge_5M :
  degen_score (Some (of_Z 5000000)) None =
    Some {| score := dec 72 10; label := Microcap |}.
Proof. vm_compute. reflexivity. Qed.

(** Tiers 8 and 8 blend to exactly 8.0, which is still a microcap. *)
Example degen_score_edge_label_8 :
  degen_score (Some (of_Z 5000000)) (Some (of_Z 10)) =
    Some {| score := of_Z 8; label := Microcap |}.
Proof. vm_compute. reflexivity. Qed.

(** C7. For market caps [m1 <= m2] and the same change the score of [m1]
    is at least the score of [m2]; for changes with [abs c1 <= abs c2] and
    the same market cap the score of [c1] is at most the score of [c2]; and
    every defined score lies between 1 and 10. *)
Theorem C7_degen_score_monotone_bounded :
  (forall m1 m2 change, leb m1 m2 = true ->
     exists d1 d2,
       degen_score (Some m1) change = Some d1 /\
       degen_score (Some m2) change = Some d2 /\
       leb (score d2) (score d1) = true) /\
  (forall m c1 c2, leb (abs c1) (abs c2) = true ->
     exists d1 d2,
       degen_score (Some m) (Some c1) = Some d1 /\
       degen_score (Some m) (Some c2) = Some d2 /\
       leb (score d1) (score d2) = true) /\
  (forall m change,
     exists d,
       degen_score (Some m) change = Some d /\
       leb (of_Z 1) (score d) = true /\ leb (score d) (of_Z 10) = true).
Proof.
  split; [|split].
  - intros m1 m2 change Hle.
    exists (degen_spec m1 change), (degen_spec m2 change).
    rewrite !degen_score_table. repeat split. cbn [degen_spec score].
    pose proof (mcap_tier_mono m1 m2 Hle).
    apply dec10_mono; unfold blend_tenths, clamp; lia.
  - intros m c1 c2 Hle.
    exists (degen_spec m (Some c1)), (degen_spec m (Some c2)).
    rewrite !degen_score_table. repeat split. cbn [degen_spec score].
    pose proof (vol_tier_mono c1 c2 Hle).
    apply dec10_mono; unfold blend_tenths, clamp; lia.
  - intros m change. exists (degen_spec m change).
    rewrite degen_score_table. repeat split; cbn [degen_spec score].
    + change (of_Z 1) with (dec 10 10).
      apply dec10_mono; pose proof (blend_tenths_range m change); lia.
    + change (of_Z 10) with (dec 100 10).
      apply dec10_mono; pose proof (blend_tenths_range m change); lia.
Qed.

Lemma C7_degen_score_monotone_witness :
  (exists d1 d2,
     degen_score (Some (of_Z 4000000)) None = Some d1 /\
     degen_score (Some (of_Z 70000000)) None = Some d2 /\
     leb (score d2) (score d1) = true) /\
  (exists d1 d2,
     degen_score (Some (of_Z 70000000)) (Some (dec (-3) 1)) = Some d1 /\
     degen_score (Some (of_Z 70000000)) (Some (of_Z 25)) = Some d2 /\
     leb (score d1) (score d2) = true).
Proof.
  split.
  - apply (proj1 C7_degen_score_monotone_bounded). vm_compute. reflexivity.
  - apply (proj1 (proj2 C7_degen_score_monotone_bounded)). vm_compute. reflexivity.
Defined.

(** ** Symbol resolver *)

Section Resolver.

Variable P : provider.

Lemma scan_coins_find (sym : string) (coins : list coin) :
  scan_coins sym coins = option_map coin_id (find (symbol_matches sym) coins).
Proof.
  induction coins as [|c rest IH]; simpl; [reflexivity|].
  unfold symbol_matches at 1.
  destruct (String.eqb _ sym); [reflexivity | exact IH].
Qed.

(** The resolver in one equation: the world changes by at most one
    search request. *)
Lemma resolve_token_id_unfold (symbol : string) (w : world) :
  resolve_token_id P symbol w =
    let sym := strip (lower symbol) in
    match CG_MAPPING !! sym with
    | Some id => (Some id, w)
    | None =>
        (match search_coins P (length (requests w)) sym with
         | Some (c0 :: rest) =>
             match find (symbol_matches sym) (c0 :: rest) with
             | Some c => coin_id c
             | None => coin_id c0
             end
         | Some [] | None => None
         end,
         sent (Search sym) w)
    end.
Proof.
  unfold resolve_token_id. cbv zeta.
  destruct (CG_MAPPING !! strip (lower symbol)) as [id|]; [reflexivity|].
  unfold bind, safe_get, ret.
  destruct (search_coins P (length (requests w)) (strip (lower symbol)))
    as [[|c0 rest]|]; try reflexivity.
  rewrite scan_coins_find.
  destruct (find _ (c0 :: rest)); reflexivity.
Qed.

Lemma resolve_token_id_frame (symbol : string) (w : world) :
  let w' := snd (resolve_token_id P symbol w) in
  PRICE_CACHE w' = PRICE_CACHE w /\ MCAP_CACHE w' = MCAP_CACHE w /\
  POSITIONS_FILE w' = POSITIONS_FILE w /\ clock_reads w' = clock_reads w /\
  (requests w' = requests w \/
   requests w' = requests w ++ [Search (strip (lower symbol))]).
Proof.
  rewrite resolve_token_id_unfold. cbv zeta.
  destruct (CG_MAPPING !! strip (lower symbol)); simpl; tauto.
Qed.

End Resolver.

(** C5. Resolution normalises the symbol to lowercased, trimmed form.  A
    form found in the alias table returns the mapped identifier at once,
    with no search call.  Otherwise one search is issued for that form: a
    reply with no candidates yields NotFound; the first candidate whose
    symbol equals the query, case ignored, gives the identifier returned;
    with no such candidate the identifier of the first candidate in the
    reply's order is returned. *)
Theorem C5_resolve_token_id (P : provider) (symbol : string) (w : world) :
  let sym := strip (lower symbol) in
  let n := length (requests w) in
  (forall id, CG_MAPPING !! sym = Some id ->
     resolve_token_id P symbol w = (Some id, w)) /\
  (CG_MAPPING !! sym = None ->
     snd (resolve_token_id P symbol w) = sent (Search sym) w /\
     (search_coins P n sym = Some [] ->
        fst (resolve_token_id P symbol w) = None) /\
     (forall coins c,
        search_coins P n sym = Some coins ->
        find (symbol_matches sym) coins = Some c ->
        fst (resolve_token_id P symbol w) = coin_id c) /\
     (forall c0 rest,
        search_coins P n sym = Some (c0 :: rest) ->
        find (symbol_matches sym) (c0 :: rest) = None ->
        fst (resolve_token_id P symbol w) = coin_id c0)).
Proof.
  intros sym n. rewrite resolve_token_id_unfold. fold sym. fold n. cbv zeta.
  split.
  - intros id ->. reflexivity.
  - intros ->. cbn [fst snd]. split; [reflexivity|]. split; [|split].
    + intros ->. reflexivity.
    + intros coins c -> Hfind. destruct coins as [|c0 rest]; [discriminate|].
      rewrite Hfind. reflexivity.
    + intros c0 rest -> ->. reflexivity.
Qed.

Example resolve_btc_no_search :
  resolve_token_id Scenario.outage " BTC "%string Scenario.w0
  = (Some "bitcoin"%string, Scenario.w0).
Proof. vm_compute. reflexivity. Qed.

Lemma C5_resolve_token_id_witness :
  resolve_token_id Scenario.doubling "Eth "%string Scenario.w0
    = (Some "ethereum"%string, Scenario.w0) /\
  fst (resolve_token_id Scenario.doubling "zzz"%string Scenario.w0) = None /\
  fst (resolve_token_id Scenario.doubling " Wbt"%string Scenario.w0)
    = Some "whitebit"%string /\
  fst (resolve_token_id Scenario.doubling "WB"%string Scenario.w0)
    = Some "wrapped-bitcoin"%string.
Proof.
  split; [|split; [|split]].
  - apply (proj1 (C5_resolve_token_id Scenario.doubling "Eth " Scenario.w0)).
    vm_compute. reflexivity.
  - destruct (proj2 (C5_resolve_token_id Scenario.doubling "zzz" Scenario.w0)
                ltac:(vm_compute; reflexivity)) as [_ [Hnone _]].
    apply Hnone. vm_compute. reflexivity.
  - destruct (proj2 (C5_resolve_token_id Scenario.doubling " Wbt" Scenario.w0)
                ltac:(vm_compute; reflexivity)) as [_ [_ [Hmatch _]]].
    apply (Hmatch Scenario.wbt_candidates
             {| coin_symbol := Some "WBT"%string;
                coin_id := Some "whitebit"%string |});
      vm_compute; reflexivity.
  - destruct (proj2 (C5_resolve_token_id Scenario.doubling "WB" Scenario.w0)
                ltac:(vm_compute; reflexivity)) as [_ [_ [_ Hfirst]]].
    apply (Hfirst
             {| coin_symbol := Some "WBTC"%string;
                coin_id := Some "wrapped-bitcoin"%string |}
             (tl Scenario.wbt_candidates));
      vm_compute; reflexivity.
Defined.

Section QuoteCache.

Variable P : provider.

Lemma get_current_price_usd_unfold (symbol : string) (w : world) :
  get_current_price_usd P symbol w =
    let now := time_time P (clock_reads w) in
    match PRICE_CACHE w !! upper symbol with
    | Some cached =>
        if ltb (sub now (ts cached)) PRICE_TTL
        then (Some (value cached), tick w)
        else refresh_price P symbol now (tick w)
    | None => refresh_price P symbol now (tick w)
    end.
Proof.
  unfold get_current_price_usd, refresh_price, bind, time_now, safe_get, ret.
  cbn [PRICE_CACHE tick].
  destruct (resolve_token_id P symbol (tick w)) as [tid w1]. cbn [fst snd].
  destruct (PRICE_CACHE w !! upper symbol) as [cached|];
    [destruct (ltb _ PRICE_TTL); [reflexivity|]|];
    (destruct (usable tid) as [id|]; [|reflexivity]);
    destruct (simple_price_usd P (length (requests w1)) id); reflexivity.
Qed.

Lemma get_token_market_cap_unfold (symbol : string) (w : world) :
  get_token_market_cap P symbol w =
    let now := time_time P (clock_reads w) in
    match MCAP_CACHE w !! upper symbol with
    | Some cached =>
        if ltb (sub now (ts cached)) MCAP_TTL
        then (Some (value cached), tick w)
        else refresh_mcap P symbol now (tick w)
    | None => refresh_mcap P symbol now (tick w)
    end.
Proof.
  unfold get_token_market_cap, refresh_mcap, bind, time_now, safe_get, ret.
  cbn [MCAP_CACHE tick].
  destruct (resolve_token_id P symbol (tick w)) as [tid w1]. cbn [fst snd].
  destruct (MCAP_CACHE w !! upper symbol) as [cached|];
    [destruct (ltb _ MCAP_TTL); [reflexivity|]|];
    (destruct (usable tid) as [id|]; [|reflexivity]);
    destruct (markets_market_cap P (length (requests w1)) id); reflexivity.
Qed.

Lemma issued_tick (w : world) : issued w (tick w) = [].
Proof. unfold issued. cbn [tick requests]. apply drop_all. Qed.

Lemma issued_app (w w' : world) (l : list request) :
  requests w' = requests w ++ l -> issued w w' = l.
Proof. unfold issued. intros ->. apply drop_app_length. Qed.

(** Resolution from the ticked world, in terms of the requests of [w]. *)
Lemma resolve_after_tick (symbol : string) (w : world) :
  let w1 := snd (resolve_token_id P symbol (tick w)) in
  PRICE_CACHE w1 = PRICE_CACHE w /\ MCAP_CACHE w1 = MCAP_CACHE w /\
  (requests w1 = requests w ++ [] \/
   requests w1 = requests w ++ [Search (strip (lower symbol))]).
Proof.
  destruct (resolve_token_id_frame P symbol (tick w)) as (Hp & Hm & _ & _ & Hr).
  cbv zeta. rewrite Hp, Hm. cbn [tick PRICE_CACHE MCAP_CACHE requests] in *.
  rewrite app_nil_r. tauto.
Qed.

End QuoteCache.

Section QuoteCacheLaws.

Variable P : provider.

Local Ltac count_issued w Hr :=
  destruct Hr as [Hr | Hr];
  match goal with
  | |- count_fetches _ (issued _ ?w') = _ =>
      rewrite (issued_app w w' _ ltac:(cbn [requests sent set_PRICE_CACHE set_MCAP_CACHE];
                                      try rewrite Hr; try rewrite <- app_assoc;
                                      reflexivity));
      reflexivity
  end.

Lemma price_cache_law (symbol : string) (w : world) (q : quote) :
  PRICE_CACHE w !! upper symbol = Some q ->
  ttl_cache_law P PRICE_CACHE PRICE_TTL (get_current_price_usd P)
    SimplePrice is_price_fetch (simple_price_usd P) symbol w q.
Proof.
  intros Hq. unfold ttl_cache_law.
  rewrite get_current_price_usd_unfold. cbv zeta. rewrite Hq.
  destruct (ltb _ PRICE_TTL).
  - cbn [fst snd]. rewrite issued_tick. auto.
  - unfold refresh_price.
    destruct (resolve_after_tick P symbol w) as (Hp & _ & Hr).
    cbv zeta in Hp, Hr.
    destruct (usable _) as [id|]; cbn [fst snd].
    + destruct (simple_price_usd P _ id) as [x|]; cbn [fst snd].
      * split; [count_issued w Hr|]. split; [reflexivity|]. split; [reflexivity|].
        cbn [PRICE_CACHE set_PRICE_CACHE sent]. rewrite Hp. reflexivity.
      * split; [count_issued w Hr|]. split; [reflexivity|]. split; [reflexivity|].
        cbn [PRICE_CACHE sent]. exact Hp.
    + split; [reflexivity|]. split; [reflexivity|]. count_issued w Hr.
Qed.

Lemma mcap_cache_law (symbol : string) (w : world) (q : quote) :
  MCAP_CACHE w !! upper symbol = Some q ->
  ttl_cache_law P MCAP_CACHE MCAP_TTL (get_token_market_cap P)
    Markets is_mcap_fetch (markets_market_cap P) symbol w q.
Proof.
  intros Hq. unfold ttl_cache_law.
  rewrite get_token_market_cap_unfold. cbv zeta. rewrite Hq.
  destruct (ltb _ MCAP_TTL).
  - cbn [fst snd]. rewrite issued_tick. auto.
  - unfold refresh_mcap.
    destruct (resolve_after_tick P symbol w) as (_ & Hm & Hr).
    cbv zeta in Hm, Hr.
    destruct (usable _) as [id|]; cbn [fst snd].
    + destruct (markets_market_cap P _ id) as [x|]; cbn [fst snd].
      * split; [count_issued w Hr|]. split; [reflexivity|]. split; [reflexivity|].
        cbn [MCAP_CACHE set_MCAP_CACHE sent]. rewrite Hm. reflexivity.
      * split; [count_issued w Hr|]. split; [reflexivity|]. split; [reflexivity|].
        cbn [MCAP_CACHE sent]. exact Hm.
    + split; [reflexivity|]. split; [reflexivity|]. count_issued w Hr.
Qed.

Lemma price_failed_refresh (symbol : string) (w : world) :
  failed_refresh_law P PRICE_CACHE PRICE_TTL (get_current_price_usd P)
    (simple_price_usd P) symbol w.
Proof.
  unfold failed_refresh_law. intros Hstale Hfail.
  rewrite get_current_price_usd_unfold. cbv zeta.
  assert (Hmiss : forall res : option float * world,
            match PRICE_CACHE w !! upper symbol with
            | Some cached =>
                if ltb (sub (time_time P (clock_reads w)) (ts cached)) PRICE_TTL
                then (Some (value cached), tick w) else res
            | None => res
            end = res).
  { intros res. destruct (PRICE_CACHE w !! upper symbol) as [q|]; [|reflexivity].
    rewrite (Hstale q eq_refl). reflexivity. }
  rewrite Hmiss. unfold refresh_price.
  destruct (resolve_after_tick P symbol w) as (Hp & Hm & _). cbv zeta in Hp, Hm.
  destruct (usable _) as [id|]; cbn [fst snd]; [rewrite Hfail|]; auto.
Qed.

Lemma mcap_failed_refresh (symbol : string) (w : world) :
  failed_refresh_law P MCAP_CACHE MCAP_TTL (get_token_market_cap P)
    (markets_market_cap P) symbol w.
Proof.
  unfold failed_refresh_law. intros Hstale Hfail.
  rewrite get_token_market_cap_unfold. cbv zeta.
  assert (Hmiss : forall res : option float * world,
            match MCAP_CACHE w !! upper symbol with
            | Some cached =>
                if ltb (sub (time_time P (clock_reads w)) (ts cached)) MCAP_TTL
                then (Some (value cached), tick w) else res
            | None => res
            end = res).
  { intros res. destruct (MCAP_CACHE w !! upper symbol) as [q|]; [|reflexivity].
    rewrite (Hstale q eq_refl). reflexivity. }
  rewrite Hmiss. unfold refresh_mcap.
  destruct (resolve_after_tick P symbol w) as (Hp & Hm & _). cbv zeta in Hp, Hm.
  destruct (usable _) as [id|]; cbn [fst snd]; [rewrite Hfail|]; auto.
Qed.

End QuoteCacheLaws.

Section PnLFacts.

Variable P : provider.

Lemma pct_or_zero_ok (profit denom : float) (w : world) :
  pct_or_zero profit denom w = (Ok (pct_of profit denom), w).
Proof.
  unfold pct_or_zero, pct_of, truthy, py_div, bindM, retM, raise.
  destruct (is_zero denom); reflexivity.
Qed.

Lemma calc_what_if_date_unfold (symbol : string) (usd_amount : float)
    (date_str : string) (w : world) :
  calc_what_if_date P symbol usd_amount date_str w =
    let h := get_historical_price_usd P symbol date_str w in
    match fst h with
    | None => (Ok None, snd h)
    | Some buy_price =>
        let c := get_current_price_usd P symbol (snd h) in
        match fst c with
        | None => (Ok None, snd c)
        | Some current =>
            if is_zero buy_price then (Raise ZeroDivisionError, snd c)
            else
              let n := get_token_name P symbol (snd c) in
              (Ok (Some (what_if_of symbol usd_amount date_str
                           buy_price current (fst n))), snd n)
        end
    end.
Proof.
  unfold calc_what_if_date, bindM, lift. cbv zeta.
  destruct (get_historical_price_usd P symbol date_str w) as [[bp|] w1];
    cbn [fst snd]; [|reflexivity].
  destruct (get_current_price_usd P symbol w1) as [[cp|] w2];
    cbn [fst snd]; [|reflexivity].
  unfold py_div at 1.
  destruct (is_zero bp); [reflexivity|]. unfold retM at 1.
  rewrite pct_or_zero_ok.
  destruct (get_token_name P symbol w2) as [name w3]. reflexivity.
Qed.

Lemma portfolio_loop_spec (positions : list position) :
  forall (idx : nat) (ti tc : float) (acc : list pnl_line) (w : world),
    portfolio_loop P idx positions ti tc acc w =
      let t := price_trace P positions w in
      let ls := priced_lines idx positions (fst t) in
      (Ok (fold_left add (map ln_initial_value ls) ti,
           fold_left add (map ln_current_value ls) tc,
           acc ++ ls), snd t).
Proof.
  induction positions as [|pos rest IH]; intros idx ti tc acc w.
  - cbn. rewrite app_nil_r. reflexivity.
  - cbn [portfolio_loop price_trace]. unfold bindM at 1, lift at 1.
    destruct (get_current_price_usd P (pos_symbol pos) w) as [[p|] w1];
      cbn [fst snd].
    + unfold bindM at 1. rewrite pct_or_zero_ok. rewrite IH.
      cbn [priced_lines map fold_left fst snd].
      rewrite <- app_assoc. reflexivity.
    + rewrite IH. reflexivity.
Qed.

Lemma priced_lines_elem (positions : list position) :
  forall (idx : nat) (prices : list (option float)) (ln : pnl_line),
    ln ∈ priced_lines idx positions prices <->
    exists (i : nat) (pos : position) (p : float),
      positions !! i = Some pos /\ prices !! i = Some (Some p) /\
      ln = line_of (idx + i) pos p.
Proof.
  induction positions as [|pos rest IH]; intros idx prices ln.
  - cbn. split; [intros H; inversion H|].
    intros (i & pos & p & H & _). destruct i; discriminate.
  - destruct prices as [|[p0|] ps]; cbn [priced_lines].
    + split; [intros H; inversion H|].
      intros (i & pos' & p & _ & H & _). destruct i; discriminate.
    + rewrite elem_of_cons, IH. split.
      * intros [-> | (i & pos' & p & H1 & H2 & ->)].
        -- exists 0%nat, pos, p0. rewrite Nat.add_0_r. auto.
        -- exists (S i), pos', p. rewrite Nat.add_succ_r. auto.
      * intros ([|i] & pos' & p & H1 & H2 & ->).
        -- cbn in H1, H2. injection H1 as <-. injection H2 as <-.
           rewrite Nat.add_0_r. auto.
        -- right. exists i, pos', p. rewrite Nat.add_succ_r. auto.
    + rewrite IH. split.
      * intros (i & pos' & p & H1 & H2 & ->).
        exists (S i), pos', p. rewrite Nat.add_succ_r. auto.
      * intros ([|i] & pos' & p & H1 & H2 & ->); [discriminate|].
        exists i, pos', p. rewrite Nat.add_succ_r. auto.
Qed.

Lemma price_trace_length (positions : list position) :
  forall w, length (fst (price_trace P positions w)) = length positions.
Proof.
  induction positions as [|pos rest IH]; intros w; cbn; [reflexivity|].
  rewrite IH. reflexivity.
Qed.

Lemma portfolio_unfold (user_id : Z) (w : world) :
  portfolio P (Some user_id) w =
    match fst (get_user_positions user_id w) with
    | [] => (Ok PortfolioEmpty, w)
    | positions =>
        (Ok (PortfolioSummary
               (summary_of (priced_lines 1 positions
                              (fst (price_trace P positions w))))),
         snd (price_trace P positions w))
    end.
Proof.
  unfold portfolio, bindM at 1, lift, get_user_positions, bind,
    load_all_positions, ret. cbn [fst snd].
  destruct (default [] _) as [|pos rest]; [reflexivity|].
  unfold bindM at 1. rewrite portfolio_loop_spec. cbv zeta.
  unfold bindM. rewrite pct_or_zero_ok. reflexivity.
Qed.

End PnLFacts.

(** ** Position store *)

Section StoreFacts.

Lemma filter_keeps_all {A} (Q : A -> Prop) `{!forall x, Decision (Q x)} (l : list A) :
  length (filter Q l) = length l <-> forall x, x ∈ l -> Q x.
Proof.
  split.
  - intros Hlen x Hx. destruct (decide (Q x)) as [|Hn]; [assumption|].
    pose proof (length_filter_lt Q l x Hx Hn). lia.
  - intros Hall. induction l as [|a l IH]; [reflexivity|].
    rewrite filter_cons_True by (apply Hall; left).
    cbn. f_equal. apply IH. intros x Hx. apply Hall. right. exact Hx.
Qed.

Lemma remove_unfold (arg : string) (user_id : Z) (w : world) :
  remove [arg] (Some user_id) w =
    let data := fst (load_all_positions w) in
    let key := user_key user_id in
    let mine := default [] (data !! key) in
    let kept := filter (fun p => pos_symbol p ≠ upper arg) mine in
    if Nat.eqb (length kept) (length mine)
    then (RemoveNoMatch (upper arg), w)
    else (RemovedAll (upper arg),
          set_POSITIONS_FILE (Stored (<[key := kept]> data)) w).
Proof.
  unfold remove, bind, load_all_positions, save_all_positions, ret.
  cbn [fst snd]. cbv zeta.
  destruct (Nat.eqb _ _); reflexivity.
Qed.

Lemma clear_unfold (user_id : Z) (w : world) :
  clear (Some user_id) w =
    let data := fst (load_all_positions w) in
    let key := user_key user_id in
    match data !! key with
    | Some (_ :: _) =>
        (Cleared, set_POSITIONS_FILE (Stored (<[key := []]> data)) w)
    | Some [] | None => (ClearNothing, w)
    end.
Proof.
  unfold clear, bind, load_all_positions, save_all_positions, ret.
  cbn [fst snd]. cbv zeta.
  destruct (_ !! user_key user_id) as [[|? ?]|]; reflexivity.
Qed.

Lemma user_key_inj (a b : Z) : user_key a = user_key b -> a = b.
Proof. apply pretty_Z_inj. Qed.

End StoreFacts.

(** C10. Remove-by-symbol deletes every stored position of the account
    whose symbol equals the uppercased argument, leaves the list of every
    other account as it was, and when no position matches leaves the whole
    store as it was and reports no match; clear empties the list of the
    requesting account only. *)
Theorem C10_remove_clear_frame (arg : string) (user_id : Z) (w : world) :
  let symbol := upper arg in
  let key := user_key user_id in
  let before := fst (load_all_positions w) in
  let mine := fst (get_user_positions user_id w) in
  let reply := fst (remove [arg] (Some user_id) w) in
  let w' := snd (remove [arg] (Some user_id) w) in
  let wc := snd (clear (Some user_id) w) in
  (forall k, k ≠ key ->
     fst (load_all_positions w') !! k = before !! k) /\
  (forall other, other ≠ user_id ->
     fst (get_user_positions other w') = fst (get_user_positions other w)) /\
  ((forall p, p ∈ mine -> pos_symbol p ≠ symbol) ->
     reply = RemoveNoMatch symbol /\ w' = w) /\
  ((exists p, p ∈ mine /\ pos_symbol p = symbol) ->
     reply = RemovedAll symbol /\
     fst (get_user_positions user_id w') =
       filter (fun p => pos_symbol p ≠ symbol) mine /\
     (forall p, p ∈ fst (get_user_positions user_id w') <->
                p ∈ mine /\ pos_symbol p ≠ symbol)) /\
  fst (get_user_positions user_id wc) = [] /\
  (forall k, k ≠ key ->
     fst (load_all_positions wc) !! k = before !! k).
Proof.
  intros symbol key before mine reply w' wc.
  assert (Hframe : forall k, k ≠ key ->
            fst (load_all_positions w') !! k = before !! k).
  { intros k Hk. subst w'. rewrite remove_unfold. cbv zeta.
    fold key before. destruct (Nat.eqb _ _); cbn [snd]; [reflexivity|].
    cbn. apply lookup_insert_ne. congruence. }
  assert (Hmine : mine = default [] (before !! key)) by reflexivity.
  split; [exact Hframe|]. split; [|split; [|split; [|split]]].
  - intros other Hother.
    unfold get_user_positions, bind, ret. cbn [fst snd].
    change (fst (load_all_positions w)) with before.
    assert (Hk : user_key other ≠ key)
      by (intros Heq; apply Hother, user_key_inj, Heq).
    replace (load_all_positions w').1 with (fst (load_all_positions w'))
      by reflexivity.
    unfold load_all_positions at 1. cbn [fst].
    change (match POSITIONS_FILE w' with
            | Stored data => data
            | _ => ∅
            end) with (fst (load_all_positions w')).
    rewrite (Hframe _ Hk). reflexivity.
  - intros Hnone. subst reply w'. rewrite remove_unfold. cbv zeta.
    fold key before symbol. rewrite <- Hmine.
    apply (filter_keeps_all (fun p => pos_symbol p ≠ symbol)) in Hnone.
    rewrite Hnone, Nat.eqb_refl. cbn. auto.
  - intros (p & Hp & Hsym). subst reply w'. rewrite remove_unfold. cbv zeta.
    fold key before symbol. rewrite <- Hmine.
    assert (Hlt : (length (filter (fun p => pos_symbol p ≠ symbol) mine)
                   < length mine)%nat).
    { apply (length_filter_lt _ mine p Hp). intros Hne. apply Hne, Hsym. }
    destruct (Nat.eqb_spec (length (filter (fun p => pos_symbol p ≠ symbol) mine))
                (length mine)) as [Heq|_]; [lia|].
    cbn [fst snd]. split; [reflexivity|].
    assert (Hget : fst (get_user_positions user_id
                     (set_POSITIONS_FILE
                        (Stored (<[key := filter (fun p => pos_symbol p ≠ symbol) mine]>
                                   before)) w))
                   = filter (fun p => pos_symbol p ≠ symbol) mine).
    { unfold get_user_positions, bind, ret, load_all_positions. cbn.
      fold key. rewrite lookup_insert_eq. reflexivity. }
    split; [exact Hget|]. intros q. rewrite Hget, list_elem_of_filter. tauto.
  - subst wc. rewrite clear_unfold. cbv zeta. fold key before.
    unfold get_user_positions, bind, ret.
    destruct (before !! key) as [[|p ps]|] eqn:Hk; cbn [fst snd].
    + unfold load_all_positions. cbn [fst]. fold before. 
      change (match POSITIONS_FILE w with Stored d => d | _ => ∅ end) with before.
      fold key. rewrite Hk. reflexivity.
    + cbn. fold key. rewrite lookup_insert_eq. reflexivity.
    + unfold load_all_positions. cbn [fst].
      change (match POSITIONS_FILE w with Stored d => d | _ => ∅ end) with before.
      fold key. rewrite Hk. reflexivity.
  - intros k Hk. subst wc. rewrite clear_unfold. cbv zeta. fold key before.
    destruct (before !! key) as [[|p ps]|]; cbn [snd]; try reflexivity.
    cbn. apply lookup_insert_ne. congruence.
Qed.

(** ** What-if *)

Section WhatIfFacts.

Variable P : provider.

Lemma what_if_raises_on_zero_history (symbol : string) (usd_amount : float)
    (date_str : string) (w : world) (bp cp : float) :
  let h := get_historical_price_usd P symbol date_str w in
  let c := get_current_price_usd P symbol (snd h) in
  fst h = Some bp -> fst c = Some cp -> is_zero bp = true ->
  calc_what_if_date P symbol usd_amount date_str w
    = (Raise ZeroDivisionError, snd c).
Proof.
  intros h c Hh Hc Hz. rewrite calc_what_if_date_unfold. cbv zeta.
  fold h. rewrite Hh. fold c. rewrite Hc, Hz. reflexivity.
Qed.

Lemma what_if_result (symbol : string) (usd_amount : float)
    (date_str : string) (w : world) (bp cp : float) :
  let h := get_historical_price_usd P symbol date_str w in
  let c := get_current_price_usd P symbol (snd h) in
  let n := get_token_name P symbol (snd c) in
  fst h = Some bp -> fst c = Some cp -> is_zero bp = false ->
  calc_what_if_date P symbol usd_amount date_str w
    = (Ok (Some (what_if_of symbol usd_amount date_str bp cp (fst n))), snd n).
Proof.
  intros h c n Hh Hc Hz. rewrite calc_what_if_date_unfold. cbv zeta.
  fold h. rewrite Hh. fold c. rewrite Hc, Hz. reflexivity.
Qed.

End WhatIfFacts.

(** C1 (amended). The what-if operation returns Unavailable when the
    historical price for the date or the current price is missing.
    Otherwise, when the historical price is not zero, it returns a result
    with [tokens = usdAmount / historicalPrice], [initialValue = usdAmount],
    [currentValue = tokens * currentPrice],
    [profitAbs = currentValue - usdAmount] and
    [profitPct = profitAbs / usdAmount * 100] (0 when [usdAmount] is 0), the
    display name being the uppercased symbol when the name lookup fails.
    With historical price 10, current price 20 and 100 USD: 10 tokens,
    current value 200, profit 100, 100 percent. *)
Theorem C1_what_if_result_nonzero_history (P : provider) (symbol : string)
    (usd_amount : float) (date_str : string) (w : world) :
  let h := get_historical_price_usd P symbol date_str w in
  let c := get_current_price_usd P symbol (snd h) in
  let n := get_token_name P symbol (snd c) in
  let run := calc_what_if_date P symbol usd_amount date_str w in
  (fst h = None -> run = (Ok None, snd h)) /\
  (forall bp, fst h = Some bp -> fst c = None -> run = (Ok None, snd c)) /\
  (forall bp cp, fst h = Some bp -> fst c = Some cp -> is_zero bp = false ->
     exists r,
       run = (Ok (Some r), snd n) /\
       wi_tokens r = div usd_amount bp /\
       wi_initial_value r = usd_amount /\
       wi_current_value r = mul (wi_tokens r) cp /\
       wi_profit_abs r = sub (wi_current_value r) usd_amount /\
       wi_profit_pct r =
         (if is_zero usd_amount then zero
          else mul (div (wi_profit_abs r) usd_amount) (of_Z 100)) /\
       wi_name r = display_name (fst n) symbol /\
       (fst n = None -> wi_name r = upper symbol) /\
       wi_symbol r = upper symbol /\ wi_usd_amount r = usd_amount /\
       wi_buy_price r = bp /\ wi_buy_date r = date_str /\
       wi_current_price r = cp) /\
  (fst h = Some (of_Z 10) -> fst c = Some (of_Z 20) -> usd_amount = of_Z 100 ->
     exists r,
       run = (Ok (Some r), snd n) /\
       wi_tokens r = of_Z 10 /\ wi_current_value r = of_Z 200 /\
       wi_profit_abs r = of_Z 100 /\ wi_profit_pct r = of_Z 100).
Proof.
  intros h c n run. split; [|split; [|split]].
  - intros Hh. subst run. rewrite calc_what_if_date_unfold. cbv zeta.
    fold h. rewrite Hh. reflexivity.
  - intros bp Hh Hc. subst run. rewrite calc_what_if_date_unfold. cbv zeta.
    fold h. rewrite Hh. fold c. rewrite Hc. reflexivity.
  - intros bp cp Hh Hc Hz.
    exists (what_if_of symbol usd_amount date_str bp cp (fst n)).
    split; [apply what_if_result; assumption|].
    cbn [what_if_of wi_tokens wi_initial_value wi_current_value wi_profit_abs
         wi_profit_pct wi_name wi_symbol wi_usd_amount wi_buy_price
         wi_buy_date wi_current_price].
    repeat split. intros ->. reflexivity.
  - intros Hh Hc ->.
    exists (what_if_of symbol (of_Z 100) date_str (of_Z 10) (of_Z 20) (fst n)).
    split; [apply what_if_result; [assumption|assumption|reflexivity]|].
    repeat split; vm_compute; reflexivity.
Qed.

Lemma C1_what_if_witness :
  calc_what_if_date Scenario.outage "btc"%string (of_Z 100) "2023-01-01"%string
      Scenario.w0
    = (Ok None, sent (History "bitcoin" "01-01-2023") Scenario.w0) /\
  (exists r,
     fst (calc_what_if_date Scenario.doubling "btc"%string (of_Z 100)
            "2023-01-01"%string Scenario.w0) = Ok (Some r) /\
     wi_name r = "Bitcoin"%string /\
     wi_tokens r = of_Z 10 /\ wi_current_value r = of_Z 200 /\
     wi_profit_abs r = of_Z 100 /\ wi_profit_pct r = of_Z 100) /\
  (exists r,
     fst (calc_what_if_date Scenario.doubling "Eth"%string (of_Z 0)
            "2023-01-01"%string Scenario.w0) = Ok (Some r) /\
     wi_name r = "ETH"%string /\ wi_profit_pct r = zero).
Proof.
  split; [|split].
  - apply (proj1 (C1_what_if_result_nonzero_history Scenario.outage "btc"
                    (of_Z 100) "2023-01-01" Scenario.w0)).
    vm_compute. reflexivity.
  - destruct (proj2 (proj2 (proj2
                (C1_what_if_result_nonzero_history Scenario.doubling "btc"
                   (of_Z 100) "2023-01-01" Scenario.w0)))
                ltac:(vm_compute; reflexivity) ltac:(vm_compute; reflexivity)
                ltac:(reflexivity))
      as (r & Hrun & Ht & Hv & Hp & Hpct).
    exists r. rewrite Hrun. repeat split; try assumption.
    vm_compute in Hrun. injection Hrun as <-. reflexivity.
  - destruct (proj1 (proj2 (proj2
                (C1_what_if_result_nonzero_history Scenario.doubling "Eth"
                   (of_Z 0) "2023-01-01" Scenario.w0)))
                (of_Z 10) (of_Z 20)
                ltac:(vm_compute; reflexivity) ltac:(vm_compute; reflexivity)
                ltac:(vm_compute; reflexivity))
      as (r & Hrun & _ & _ & _ & _ & Hpct & _ & Hname & _).
    exists r. rewrite Hrun. repeat split.
    + apply Hname. vm_compute. reflexivity.
    + exact Hpct.
Defined.

(** C1, refuted as stated: both prices are present, the historical one is
    zero, and the operation raises instead of returning a result. *)
Lemma C1_counterexample_zero_history :
  fst (get_historical_price_usd Scenario.worthless_then "btc"%string
         "2023-01-01"%string Scenario.w0) = Some (of_Z 0) /\
  fst (get_current_price_usd Scenario.worthless_then "btc"%string
         (snd (get_historical_price_usd Scenario.worthless_then "btc"%string
                 "2023-01-01"%string Scenario.w0))) = Some (of_Z 20) /\
  fst (calc_what_if_date Scenario.worthless_then "btc"%string (of_Z 100)
         "2023-01-01"%string Scenario.w0) = Raise ZeroDivisionError.
Proof. vm_compute. repeat split; reflexivity. Qed.

(** C9, at the failing input: a what-if request for which the provider
    reports a historical price of 0 ends in an uncaught ZeroDivisionError,
    not in an absence-of-result value. *)
Theorem C9_what_if_zero_history_raises :
  fst (calc_what_if_date Scenario.worthless_then "eth"%string (of_Z 250)
         "2023-01-01"%string Scenario.w0) = Raise ZeroDivisionError.
Proof.
  assert (H := what_if_raises_on_zero_history Scenario.worthless_then "eth"
             (of_Z 250) "2023-01-01" Scenario.w0 (of_Z 0) (of_Z 20)
             ltac:(vm_compute; reflexivity) ltac:(vm_compute; reflexivity)
             ltac:(vm_compute; reflexivity)).
  rewrite H. reflexivity.
Qed.

(** C8 (amended). In what-if and in portfolio mode, when the denominator
    of profitPct (the USD amount, the initial value) is 0, profitPct is 0
    and no division fault occurs, provided, in what-if mode, that the
    fetched historical price is not zero: a what-if of 0 USD whose
    historical price is missing or not zero ends without a fault, and
    every result it returns has profitPct 0; with both prices present and
    the historical one not zero it does return a result.  The portfolio
    always ends without a fault, with percentage 0 on every line and on
    the total whose initial value is 0. *)
Theorem C8_zero_denominator_pct_is_zero :
  (forall profit denom w,
     is_zero denom = true -> pct_or_zero profit denom w = (Ok zero, w)) /\
  (forall P symbol usd_amount date_str w,
     is_zero usd_amount = true ->
     (forall bp, fst (get_historical_price_usd P symbol date_str w) = Some bp ->
                 is_zero bp = false) ->
     exists out w',
       calc_what_if_date P symbol usd_amount date_str w = (Ok out, w') /\
       forall r, out = Some r -> wi_profit_pct r = zero) /\
  (forall P symbol usd_amount date_str w bp cp,
     is_zero usd_amount = true ->
     fst (get_historical_price_usd P symbol date_str w) = Some bp ->
     fst (get_current_price_usd P symbol
            (snd (get_historical_price_usd P symbol date_str w))) = Some cp ->
     is_zero bp = false ->
     exists r w',
       calc_what_if_date P symbol usd_amount date_str w = (Ok (Some r), w') /\
       wi_profit_pct r = zero) /\
  (forall P user w,
     exists reply w',
       portfolio P user w = (Ok reply, w') /\
       forall s, reply = PortfolioSummary s ->
         (is_zero (total_initial s) = true -> total_pct s = zero) /\
         (forall ln, ln ∈ lines s ->
            is_zero (ln_initial_value ln) = true -> ln_profit_pct ln = zero)).
Proof.
  split; [|split; [|split]].
  - intros profit denom w Hz. rewrite pct_or_zero_ok.
    unfold pct_of. rewrite Hz. reflexivity.
  - intros P symbol usd date w Hz Hnz.
    rewrite calc_what_if_date_unfold. cbv zeta.
    destruct (fst (get_historical_price_usd P symbol date w)) as [bp|];
      [|eexists _, _; split; [reflexivity | discriminate]].
    rewrite (Hnz bp eq_refl).
    destruct (fst (get_current_price_usd P symbol _)) as [cp|];
      [|eexists _, _; split; [reflexivity | discriminate]].
    eexists _, _. split; [reflexivity|].
    intros r Hr.
    assert (Hres : r = what_if_of symbol usd date bp cp
                         (fst (get_token_name P symbol
                                 (snd (get_current_price_usd P symbol
                                         (snd (get_historical_price_usd P symbol
                                                 date w)))))))
      by congruence.
    rewrite Hres. cbn [what_if_of wi_profit_pct].
    unfold pct_of. rewrite Hz. reflexivity.
  - intros P symbol usd date w bp cp Hz Hh Hc Hbp.
    eexists _, _. split.
    + apply what_if_result; eassumption.
    + cbn [what_if_of wi_profit_pct]. unfold pct_of. rewrite Hz. reflexivity.
  - intros P [user_id|] w.
    + rewrite portfolio_unfold.
      destruct (fst (get_user_positions user_id w)) as [|pos rest] eqn:Hpos.
      * eexists _, _. split; [reflexivity|]. discriminate.
      * remember (priced_lines 1 (pos :: rest)
                    (fst (price_trace P (pos :: rest) w))) as ls eqn:Hls.
        eexists _, _. split; [reflexivity|].
        intros s Hs. assert (Hsum : s = summary_of ls) by congruence.
        rewrite Hsum. cbn [summary_of lines total_initial total_pct]. split.
        -- intros Hz. unfold pct_of. rewrite Hz. reflexivity.
        -- intros ln Hln Hz. rewrite Hls in Hln.
           apply priced_lines_elem in Hln as (i & p & x & _ & _ & Hln).
           rewrite Hln in Hz |- *.
           cbn [line_of ln_initial_value ln_profit_pct] in Hz |- *.
           unfold pct_of. rewrite Hz. reflexivity.
    + eexists _, _. split; [reflexivity|]. discriminate.
Qed.

Lemma C8_zero_denominator_witness :
  pct_or_zero (of_Z (-7)) (S754_zero true) Scenario.w0 = (Ok zero, Scenario.w0) /\
  (exists out w',
     calc_what_if_date Scenario.doubling "btc"%string zero "2023-01-01"%string
       Scenario.w0 = (Ok out, w') /\
     forall r, out = Some r -> wi_profit_pct r = zero) /\
  (exists r w',
     calc_what_if_date Scenario.doubling "btc"%string zero "2023-01-01"%string
       Scenario.w0 = (Ok (Some r), w') /\
     wi_profit_pct r = zero).
Proof.
  split; [|split].
  - apply (proj1 C8_zero_denominator_pct_is_zero). reflexivity.
  - apply (proj1 (proj2 C8_zero_denominator_pct_is_zero)
             Scenario.doubling "btc"%string zero "2023-01-01"%string
             Scenario.w0); [reflexivity|].
    intros bp Hbp. vm_compute in Hbp.
    assert (Hten : bp = S754_finite false 5629499534213120 (-49)) by congruence.
    rewrite Hten. reflexivity.
  - apply (proj1 (proj2 (proj2 C8_zero_denominator_pct_is_zero))
             Scenario.doubling "btc"%string zero "2023-01-01"%string
             Scenario.w0 (of_Z 10) (of_Z 20));
      vm_compute; reflexivity.
Defined.

(** C8, refuted as stated: the USD amount, the denominator of profitPct,
    is 0, both prices are present, the historical one is 0, and the what-if
    ends in a division fault instead of a result with profitPct 0. *)
Lemma C8_counterexample_zero_amount_zero_history :
  is_zero zero = true /\
  fst (get_historical_price_usd Scenario.worthless_then "btc"%string
         "2023-01-01"%string Scenario.w0) = Some (of_Z 0) /\
  fst (get_current_price_usd Scenario.worthless_then "btc"%string
         (snd (get_historical_price_usd Scenario.worthless_then "btc"%string
                 "2023-01-01"%string Scenario.w0))) = Some (of_Z 20) /\
  fst (calc_what_if_date Scenario.worthless_then "btc"%string zero
         "2023-01-01"%string Scenario.w0) = Raise ZeroDivisionError.
Proof. vm_compute. repeat split; reflexivity. Qed.

(** C2. For the ordered positions of one account: a position whose
    current-price lookup is unavailable yields no line and adds nothing to
    the totals; every priced position yields a line with
    [initialValue = amount * buyPrice],
    [currentValue = amount * currentPrice],
    [profitAbs = currentValue - initialValue] and
    [profitPct = profitAbs / initialValue * 100] (0 when [initialValue] is
    0); the totals are the sums of the initial and current values over
    exactly those lines, with total profit and percentage by the same
    formulas over the totals. *)
Theorem C2_portfolio_lines_and_totals (P : provider) (user_id : Z) (w : world) :
  let positions := fst (get_user_positions user_id w) in
  let prices := fst (price_trace P positions w) in
  positions ≠ [] ->
  exists s,
    portfolio P (Some user_id) w
      = (Ok (PortfolioSummary s), snd (price_trace P positions w)) /\
    length prices = length positions /\
    (forall ln, ln ∈ lines s <->
       exists i pos p,
         positions !! i = Some pos /\ prices !! i = Some (Some p) /\
         ln = line_of (S i) pos p) /\
    lines s = priced_lines 1 positions prices /\
    (forall ln, ln ∈ lines s ->
       ln_initial_value ln = mul (ln_amount ln) (ln_buy_price ln) /\
       ln_current_value ln = mul (ln_amount ln) (ln_current_price ln) /\
       ln_profit_abs ln = sub (ln_current_value ln) (ln_initial_value ln) /\
       ln_profit_pct ln =
         (if is_zero (ln_initial_value ln) then zero
          else mul (div (ln_profit_abs ln) (ln_initial_value ln)) (of_Z 100))) /\
    total_initial s = fsum (map ln_initial_value (lines s)) /\
    total_current s = fsum (map ln_current_value (lines s)) /\
    total_profit s = sub (total_current s) (total_initial s) /\
    total_pct s =
      (if is_zero (total_initial s) then zero
       else mul (div (total_profit s) (total_initial s)) (of_Z 100)).
Proof.
  intros positions prices Hne.
  exists (summary_of (priced_lines 1 positions prices)).
  split.
  - rewrite portfolio_unfold. fold positions.
    destruct positions as [|pos rest] eqn:Hpos; [congruence|]. reflexivity.
  - split; [apply price_trace_length|].
    cbn [summary_of lines total_initial total_current total_profit total_pct].
    split; [|split; [reflexivity|split; [|repeat split]]].
    + intros ln. apply priced_lines_elem.
    + intros ln Hln.
      apply priced_lines_elem in Hln as (i & pos & p & _ & _ & ->).
      repeat split.
Qed.

Lemma C2_portfolio_witness :
  exists s w',
    portfolio Cases.patchy (Some 42) Cases.book = (Ok (PortfolioSummary s), w') /\
    map ln_idx (lines s) = [1%nat; 3%nat] /\
    map ln_sym (lines s) = ["BTC"%string; "ETH"%string] /\
    map ln_profit_pct (lines s) = [of_Z 50; zero] /\
    total_initial s = of_Z 10000 /\ total_current s = of_Z 19000 /\
    total_profit s = of_Z 9000 /\ total_pct s = of_Z 90.
Proof.
  destruct (C2_portfolio_lines_and_totals Cases.patchy 42 Cases.book
              ltac:(vm_compute; discriminate))
    as (s & Hrun & _ & _ & Hlines & _ & Hti & Htc & Htp & Hpct).
  exists s, (snd (price_trace Cases.patchy
                    (fst (get_user_positions 42 Cases.book)) Cases.book)).
  split; [exact Hrun|].
  rewrite Hpct, Htp, Htc, Hti, Hlines. vm_compute. repeat split; reflexivity.
Defined.

(** C3 (amended). For each quote cache (spot price, TTL 20; market cap,
    TTL 60): a lookup for a symbol whose entry was fetched less than TTL
    ago returns the cached value, issues no request and leaves the caches
    as they were.  A lookup at or after TTL resolves the symbol again; when
    resolution yields an identifier it issues exactly one new fetch for
    it, and on success overwrites the entry with the new value and the
    current timestamp; when resolution fails it issues no fetch and
    returns Unavailable. *)
Theorem C3_quote_cache_ttl (P : provider) (symbol : string) (w : world) :
  (forall q, PRICE_CACHE w !! upper symbol = Some q ->
     ttl_cache_law P PRICE_CACHE PRICE_TTL (get_current_price_usd P)
       SimplePrice is_price_fetch (simple_price_usd P) symbol w q) /\
  (forall q, MCAP_CACHE w !! upper symbol = Some q ->
     ttl_cache_law P MCAP_CACHE MCAP_TTL (get_token_market_cap P)
       Markets is_mcap_fetch (markets_market_cap P) symbol w q).
Proof.
  split; intros q Hq.
  - apply price_cache_law, Hq.
  - apply mcap_cache_law, Hq.
Qed.

Lemma C3_quote_cache_ttl_witness :
  (fst (get_current_price_usd Scenario.outage "btc"%string
          (Cases.cached_price "BTC" (of_Z 100) Cases.just_now))
     = Some (of_Z 100)) /\
  (fst (get_token_market_cap Cases.patchy "btc"%string
          (Cases.cached_mcap "BTC" (of_Z 5) Cases.long_ago))
     = Some (of_Z 900000000) /\
   MCAP_CACHE (snd (get_token_market_cap Cases.patchy "btc"%string
                      (Cases.cached_mcap "BTC" (of_Z 5) Cases.long_ago)))
     = {[ "BTC"%string := {| value := of_Z 900000000; ts := of_Z 1700000000 |} ]}).
Proof.
  split.
  - pose proof (proj1 (C3_quote_cache_ttl Scenario.outage "btc"
                         (Cases.cached_price "BTC" (of_Z 100) Cases.just_now))
                  {| value := of_Z 100; ts := Cases.just_now |}
                  ltac:(vm_compute; reflexivity)) as Hlaw.
    vm_compute in Hlaw. vm_compute. exact (proj1 Hlaw).
  - pose proof (proj2 (C3_quote_cache_ttl Cases.patchy "btc"
                         (Cases.cached_mcap "BTC" (of_Z 5) Cases.long_ago))
                  {| value := of_Z 5; ts := Cases.long_ago |}
                  ltac:(vm_compute; reflexivity)) as Hlaw.
    vm_compute in Hlaw. vm_compute.
    destruct Hlaw as (_ & _ & Hr & Hc). split; assumption.
Defined.

(** C3, refuted as stated: with an expired entry, a lookup whose
    resolution finds no candidate issues no price fetch at all, and a
    lookup of a symbol outside the alias table issues two requests. *)
Lemma C3_counterexample_fetch_count :
  (PRICE_CACHE (Cases.cached_price "ZZZ" (of_Z 5) Cases.long_ago)
     !! upper "zzz" = Some {| value := of_Z 5; ts := Cases.long_ago |} /\
   ltb (sub (time_time Scenario.doubling 0) Cases.long_ago) PRICE_TTL = false /\
   issued (Cases.cached_price "ZZZ" (of_Z 5) Cases.long_ago)
     (snd (get_current_price_usd Scenario.doubling "zzz"%string
             (Cases.cached_price "ZZZ" (of_Z 5) Cases.long_ago)))
     = [Search "zzz"] /\
   count_fetches is_price_fetch
     (issued (Cases.cached_price "ZZZ" (of_Z 5) Cases.long_ago)
        (snd (get_current_price_usd Scenario.doubling "zzz"%string
                (Cases.cached_price "ZZZ" (of_Z 5) Cases.long_ago))))
     = 0%nat) /\
  (PRICE_CACHE (Cases.cached_price "WBT" (of_Z 5) Cases.long_ago)
     !! upper "wbt" = Some {| value := of_Z 5; ts := Cases.long_ago |} /\
   issued (Cases.cached_price "WBT" (of_Z 5) Cases.long_ago)
     (snd (get_current_price_usd Scenario.doubling "wbt"%string
             (Cases.cached_price "WBT" (of_Z 5) Cases.long_ago)))
     = [Search "wbt"; SimplePrice "whitebit"]).
Proof. vm_compute. repeat split; reflexivity. Qed.

(** C4 (amended). When a lookup finds no entry younger than the TTL and
    resolution or the new fetch fails, the lookup returns Unavailable and
    both caches are left as they were: an old entry is not evicted, and it
    is not served either. *)
Theorem C4_failed_refresh_keeps_entry (P : provider) (symbol : string) (w : world) :
  failed_refresh_law P PRICE_CACHE PRICE_TTL (get_current_price_usd P)
    (simple_price_usd P) symbol w /\
  failed_refresh_law P MCAP_CACHE MCAP_TTL (get_token_market_cap P)
    (markets_market_cap P) symbol w.
Proof. split; [apply price_failed_refresh | apply mcap_failed_refresh]. Qed.

Lemma C4_failed_refresh_witness :
  fst (get_current_price_usd Scenario.outage "btc"%string
         (Cases.cached_price "BTC" (of_Z 100) Cases.long_ago)) = None /\
  PRICE_CACHE (snd (get_current_price_usd Scenario.outage "btc"%string
                      (Cases.cached_price "BTC" (of_Z 100) Cases.long_ago)))
    = PRICE_CACHE (Cases.cached_price "BTC" (of_Z 100) Cases.long_ago) /\
  MCAP_CACHE (snd (get_current_price_usd Scenario.outage "btc"%string
                     (Cases.cached_price "BTC" (of_Z 100) Cases.long_ago)))
    = MCAP_CACHE (Cases.cached_price "BTC" (of_Z 100) Cases.long_ago).
Proof.
  apply (proj1 (C4_failed_refresh_keeps_entry Scenario.outage "btc"
                  (Cases.cached_price "BTC" (of_Z 100) Cases.long_ago))).
  - intros q Hq. vm_compute in Hq.
    assert (Hq' : q = {| value := of_Z 100; ts := Cases.long_ago |})
      by (vm_compute; congruence).
    rewrite Hq'. vm_compute. reflexivity.
  - vm_compute. reflexivity.
Defined.

(** C4, refuted as stated: an expired entry exists, the fetch fails, and
    the lookup answers Unavailable, not the stale value, which stays in
    the cache. *)
Lemma C4_counterexample_stale_not_served :
  PRICE_CACHE (Cases.cached_price "BTC" (of_Z 100) Cases.long_ago)
    !! "BTC"%string = Some {| value := of_Z 100; ts := Cases.long_ago |} /\
  fst (get_current_price_usd Scenario.outage "btc"%string
         (Cases.cached_price "BTC" (of_Z 100) Cases.long_ago)) = None /\
  PRICE_CACHE (snd (get_current_price_usd Scenario.outage "btc"%string
                      (Cases.cached_price "BTC" (of_Z 100) Cases.long_ago)))
    !! "BTC"%string = Some {| value := of_Z 100; ts := Cases.long_ago |}.
Proof. vm_compute. repeat split; reflexivity. Qed.

Lemma C10_remove_clear_witness :
  (fst (remove ["doge"%string] (Some 42) Cases.book) = RemoveNoMatch "DOGE" /\
   snd (remove ["doge"%string] (Some 42) Cases.book) = Cases.book) /\
  (fst (remove ["sol"%string] (Some 42) Cases.book) = RemovedAll "SOL" /\
   map pos_symbol
     (fst (get_user_positions 42 (snd (remove ["sol"%string] (Some 42) Cases.book))))
     = ["BTC"%string; "ETH"%string]) /\
  fst (get_user_positions 7 (snd (remove ["sol"%string] (Some 42) Cases.book)))
    = fst (get_user_positions 7 Cases.book).
Proof.
  pose proof (C10_remove_clear_frame "doge" 42 Cases.book) as Hdoge.
  pose proof (C10_remove_clear_frame "sol" 42 Cases.book) as Hsol.
  cbv zeta in Hdoge, Hsol.
  destruct Hdoge as (_ & _ & Hnone & _).
  destruct Hsol as (_ & Hother & _ & Hall & _).
  split; [|split].
  - apply Hnone. apply Forall_forall. vm_compute.
    repeat (constructor; [intros Heq; discriminate Heq|]). constructor.
  - destruct Hall as (Hreply & Hkept & _).
    + exists {| pos_symbol := "SOL"; pos_amount := of_Z 10;
                pos_buy_price := of_Z 80;
                pos_created_at := "2024-01-02T00:00:00Z" |}.
      split; [|vm_compute; reflexivity].
      vm_compute. apply list_elem_of_further, list_elem_of_here.
    + split; [exact Hreply|]. rewrite Hkept. vm_compute. reflexivity.
  - apply Hother. discriminate.
Defined.

(** * Beyond the claims: further properties of the code *)

(** ** Case and whitespace normalisation *)

Section StringFacts.

Local Ltac by_char c :=
  destruct c as [[] [] [] [] [] [] [] []]; reflexivity.

Lemma lower_char_idem (c : ascii) : lower_char (lower_char c) = lower_char c.
Proof. by_char c. Qed.

Lemma upper_char_idem (c : ascii) : upper_char (upper_char c) = upper_char c.
Proof. by_char c. Qed.

Lemma lower_upper_char (c : ascii) : lower_char (upper_char c) = lower_char c.
Proof. by_char c. Qed.

Lemma upper_lower_char (c : ascii) : upper_char (lower_char c) = upper_char c.
Proof. by_char c. Qed.

Lemma is_space_lower_char (c : ascii) : is_space (lower_char c) = is_space c.
Proof. by_char c. Qed.

Lemma map_chars_compose (f g h : ascii -> ascii) (s : string) :
  (forall c, f (g c) = h c) -> map_chars f (map_chars g s) = map_chars h s.
Proof.
  intros Hfg. induction s as [|c s IH]; cbn; [reflexivity|].
  rewrite Hfg, IH. reflexivity.
Qed.

Lemma lower_idem (s : string) : lower (lower s) = lower s.
Proof. apply map_chars_compose, lower_char_idem. Qed.

Lemma upper_idem (s : string) : upper (upper s) = upper s.
Proof. apply map_chars_compose, upper_char_idem. Qed.

Lemma lower_upper (s : string) : lower (upper s) = lower s.
Proof. apply map_chars_compose, lower_upper_char. Qed.

Lemma upper_lower (s : string) : upper (lower s) = upper s.
Proof. apply map_chars_compose, upper_lower_char. Qed.

Lemma lstrip_lower (s : string) : lstrip (lower s) = lower (lstrip s).
Proof.
  induction s as [|c s IH]; cbn; [reflexivity|].
  rewrite is_space_lower_char. destruct (is_space c); [exact IH | reflexivity].
Qed.

Lemma rstrip_lower (s : string) : rstrip (lower s) = lower (rstrip s).
Proof.
  induction s as [|c s IH]; cbn; [reflexivity|].
  fold (lower s). rewrite IH, is_space_lower_char.
  destruct (rstrip s); cbn; [destruct (is_space c)|]; reflexivity.
Qed.

Lemma strip_lower (s : string) : strip (lower s) = lower (strip s).
Proof. unfold strip. rewrite lstrip_lower, rstrip_lower. reflexivity. Qed.

Lemma rstrip_cons (c : ascii) (s : string) :
  rstrip (String c s) =
    match rstrip s with
    | EmptyString => if is_space c then EmptyString else String c EmptyString
    | r => String c r
    end.
Proof. reflexivity. Qed.

Lemma rstrip_idem (s : string) : rstrip (rstrip s) = rstrip s.
Proof.
  induction s as [|c s IH]; [reflexivity|].
  rewrite (rstrip_cons c s).
  destruct (rstrip s) as [|d r] eqn:Hr.
  - destruct (is_space c) eqn:Hc; [reflexivity|].
    rewrite rstrip_cons. cbn [rstrip]. rewrite Hc. reflexivity.
  - rewrite rstrip_cons, IH. reflexivity.
Qed.

Lemma lstrip_clean (s : string) : starts_clean (lstrip s).
Proof.
  induction s as [|c s IH]; cbn; [exact I|].
  destruct (is_space c) eqn:Hc; [exact IH | exact Hc].
Qed.

Lemma lstrip_of_clean (s : string) : starts_clean s -> lstrip s = s.
Proof. destruct s as [|c s]; cbn; [reflexivity|]. intros ->. reflexivity. Qed.

Lemma rstrip_clean (s : string) : starts_clean s -> starts_clean (rstrip s).
Proof.
  destruct s as [|c s]; cbn; [trivial|]. intros Hc.
  destruct (rstrip s); [rewrite Hc|]; exact Hc.
Qed.

Lemma strip_idem (s : string) : strip (strip s) = strip s.
Proof.
  unfold strip.
  rewrite (lstrip_of_clean (rstrip (lstrip s)))
    by apply rstrip_clean, lstrip_clean.
  apply rstrip_idem.
Qed.

(** The resolver's normal form is a fixed point of itself and forgets the
    case and the surrounding white space of its argument. *)
Lemma normal_form_idem (s : string) :
  strip (lower (strip (lower s))) = strip (lower s).
Proof. rewrite <- strip_lower, lower_idem. apply strip_idem. Qed.

Lemma normal_form_upper (s : string) : strip (lower (upper s)) = strip (lower s).
Proof. rewrite lower_upper. reflexivity. Qed.

Lemma normal_form_strip (s : string) : strip (lower (strip s)) = strip (lower s).
Proof. rewrite <- strip_lower. apply strip_idem. Qed.

End StringFacts.

Section ResolverInvariance.

Variable P : provider.

Lemma resolve_same_normal_form (s1 s2 : string) (w : world) :
  strip (lower s1) = strip (lower s2) ->
  resolve_token_id P s1 w = resolve_token_id P s2 w.
Proof. intros H. rewrite !resolve_token_id_unfold. cbv zeta. rewrite H. reflexivity. Qed.

End ResolverInvariance.

(** X1. Resolution does not depend on the case of an ASCII symbol or on
    white space around it: the symbol, its uppercased form, its lowercased
    form, its trimmed form and its normal form all resolve to the same
    result with the same effect on the world. *)
Theorem X1_resolve_ignores_case_and_padding (P : provider) (s : string) (w : world) :
  resolve_token_id P (upper s) w = resolve_token_id P s w /\
  resolve_token_id P (lower s) w = resolve_token_id P s w /\
  resolve_token_id P (strip s) w = resolve_token_id P s w /\
  resolve_token_id P (strip (lower s)) w = resolve_token_id P s w.
Proof.
  repeat split; apply resolve_same_normal_form.
  - apply normal_form_upper.
  - rewrite lower_idem. reflexivity.
  - apply normal_form_strip.
  - apply normal_form_idem.
Qed.

Example resolve_padded_mixed_case :
  resolve_token_id Scenario.doubling "  wBt "%string Scenario.w0
  = resolve_token_id Scenario.doubling "WBT"%string Scenario.w0.
Proof. vm_compute. reflexivity. Qed.

Section AliasTable.

(** The alias table as the list it is written as. *)
Lemma alias_keys_normal (k id : string) :
  CG_MAPPING !! k = Some id -> strip (lower k) = k.
Proof.
  intros Hk.
  assert (Hall : map_Forall (fun k _ => strip (lower k) = k) CG_MAPPING).
  { apply map_Forall_to_list.
    assert (Hb : forallb (fun kv => String.eqb (strip (lower (fst kv))) (fst kv))
                   (map_to_list CG_MAPPING) = true) by (vm_compute; reflexivity).
    rewrite forallb_forall in Hb. apply Forall_forall. intros [k' v'] Hin.
    apply String.eqb_eq. apply (Hb (k', v')). apply list_elem_of_In, Hin. }
  exact (Hall k id Hk).
Qed.

End AliasTable.

(** X2. Every spelling of a ticker of the alias table resolves to the
    mapped identifier without any request and without changing the world:
    the key itself, its uppercased form, and any symbol whose lowercased,
    trimmed form is the key. *)
Theorem X2_alias_resolves_offline (P : provider) (k id : string) (w : world) :
  CG_MAPPING !! k = Some id ->
  resolve_token_id P k w = (Some id, w) /\
  resolve_token_id P (upper k) w = (Some id, w) /\
  (forall s, strip (lower s) = k -> resolve_token_id P s w = (Some id, w)).
Proof.
  intros Hk. pose proof (alias_keys_normal k id Hk) as Hnf.
  assert (Hany : forall s, strip (lower s) = k ->
                           resolve_token_id P s w = (Some id, w)).
  { intros s Hs. rewrite resolve_token_id_unfold. cbv zeta.
    rewrite Hs, Hk. reflexivity. }
  split; [apply Hany, Hnf|]. split; [|exact Hany].
  apply Hany. rewrite normal_form_upper. exact Hnf.
Qed.

Lemma X2_alias_resolves_offline_witness :
  resolve_token_id Scenario.outage "doge"%string Scenario.w0
    = (Some "dogecoin"%string, Scenario.w0) /\
  resolve_token_id Scenario.outage (upper "doge") Scenario.w0
    = (Some "dogecoin"%string, Scenario.w0) /\
  (forall s, strip (lower s) = "doge"%string ->
     resolve_token_id Scenario.outage s Scenario.w0
       = (Some "dogecoin"%string, Scenario.w0)).
Proof.
  apply (X2_alias_resolves_offline Scenario.outage "doge" "dogecoin" Scenario.w0).
  vm_compute. reflexivity.
Defined.

(** ** Position store: how the operations compose *)

Section StoreCompose.

Lemma get_user_positions_unfold (user_id : Z) (w : world) :
  get_user_positions user_id w
  = (default [] (fst (load_all_positions w) !! user_key user_id), w).
Proof. reflexivity. Qed.

Lemma load_after_save (data : gmap string (list position)) (w : world) :
  fst (load_all_positions (set_POSITIONS_FILE (Stored data) w)) = data.
Proof. reflexivity. Qed.

Lemma add_user_position_unfold (user_id : Z) (symbol : string)
    (amount buy_price : float) (created_at : string) (w : world) :
  snd (add_user_position user_id symbol amount buy_price created_at w)
  = set_POSITIONS_FILE
      (Stored (<[user_key user_id :=
                   fst (get_user_positions user_id w) ++
                   [{| pos_symbol := upper symbol; pos_amount := amount;
                       pos_buy_price := buy_price;
                       pos_created_at := created_at |}]]>
                 (fst (load_all_positions w)))) w.
Proof. reflexivity. Qed.

Lemma filter_all_id {A} (Q : A -> Prop) `{!forall x, Decision (Q x)} (l : list A) :
  length (filter Q l) = length l -> filter Q l = l.
Proof.
  intros Hlen.
  pose proof (proj1 (filter_keeps_all Q l) Hlen) as Hall. clear Hlen.
  induction l as [|a l IH]; [reflexivity|].
  rewrite filter_cons_True by (apply Hall; left).
  f_equal. apply IH. intros x Hx. apply Hall. right. exact Hx.
Qed.

Lemma remove_get (arg : string) (user_id : Z) (w : world) :
  fst (get_user_positions user_id (snd (remove [arg] (Some user_id) w)))
  = filter (fun p => pos_symbol p ≠ upper arg) (fst (get_user_positions user_id w)).
Proof.
  rewrite remove_unfold. cbv zeta.
  rewrite (get_user_positions_unfold user_id w). cbn [fst].
  remember (default [] (fst (load_all_positions w) !! user_key user_id))
    as mine eqn:Hmine.
  destruct (Nat.eqb_spec
              (length (filter (fun p => pos_symbol p ≠ upper arg) mine))
              (length mine)) as [Heq|Hne]; cbn [snd].
  - rewrite get_user_positions_unfold. cbn [fst]. rewrite <- Hmine.
    symmetry. apply (filter_all_id (fun p => pos_symbol p ≠ upper arg)), Heq.
  - rewrite get_user_positions_unfold. cbn [fst].
    rewrite load_after_save, lookup_insert_eq. reflexivity.
Qed.

Lemma remove_reply_spec (arg : string) (user_id : Z) (w : world) :
  fst (remove [arg] (Some user_id) w)
  = if Nat.eqb
         (length (filter (fun p => pos_symbol p ≠ upper arg)
                    (fst (get_user_positions user_id w))))
         (length (fst (get_user_positions user_id w)))
    then RemoveNoMatch (upper arg) else RemovedAll (upper arg).
Proof.
  rewrite remove_unfold. cbv zeta. rewrite get_user_positions_unfold. cbn [fst].
  destruct (Nat.eqb _ _); reflexivity.
Qed.

Lemma filter_filter_same {A} (Q : A -> Prop) `{!forall x, Decision (Q x)} (l : list A) :
  filter Q (filter Q l) = filter Q l.
Proof.
  induction l as [|a l IH]; [reflexivity|].
  destruct (decide (Q a)) as [Ha|Ha].
  - rewrite (filter_cons_True Q a l Ha), (filter_cons_True Q a _ Ha), IH.
    reflexivity.
  - rewrite (filter_cons_False Q a l Ha). exact IH.
Qed.

End StoreCompose.

(** X3. Adding a position appends exactly one record, with the symbol
    uppercased and the numbers as given, to the end of the account's list:
    earlier positions are kept in order, nothing is merged, every other
    account keeps its list, and caches, clock and request log are not
    touched. *)
Theorem X3_add_position_appends (user_id : Z) (symbol : string)
    (amount buy_price : float) (created_at : string) (w : world) :
  let w' := snd (add_user_position user_id symbol amount buy_price created_at w) in
  fst (get_user_positions user_id w')
    = fst (get_user_positions user_id w) ++
      [{| pos_symbol := upper symbol; pos_amount := amount;
          pos_buy_price := buy_price; pos_created_at := created_at |}] /\
  (forall other, other ≠ user_id ->
     fst (get_user_positions other w') = fst (get_user_positions other w)) /\
  PRICE_CACHE w' = PRICE_CACHE w /\ MCAP_CACHE w' = MCAP_CACHE w /\
  clock_reads w' = clock_reads w /\ requests w' = requests w.
Proof.
  intros w'. subst w'. rewrite add_user_position_unfold.
  split; [|split; [|repeat split]].
  - rewrite get_user_positions_unfold at 1. cbn [fst].
    rewrite load_after_save, lookup_insert_eq. reflexivity.
  - intros other Hne. rewrite get_user_positions_unfold at 1. cbn [fst].
    rewrite load_after_save, lookup_insert_ne; [reflexivity|].
    intros Heq. apply Hne. symmetry. apply user_key_inj, Heq.
Qed.

(** X4. Removing a symbol right after adding a position with that symbol,
    in any letter case, reports a removal and leaves the account with its
    earlier positions of other symbols: the new position and every older
    one with that symbol are gone. *)
Theorem X4_add_then_remove (user_id : Z) (symbol arg : string)
    (amount buy_price : float) (created_at : string) (w : world) :
  upper arg = upper symbol ->
  let w1 := snd (add_user_position user_id symbol amount buy_price created_at w) in
  fst (remove [arg] (Some user_id) w1) = RemovedAll (upper arg) /\
  fst (get_user_positions user_id (snd (remove [arg] (Some user_id) w1)))
    = filter (fun p => pos_symbol p ≠ upper arg)
        (fst (get_user_positions user_id w)).
Proof.
  intros Hsym w1.
  assert (Hget : fst (get_user_positions user_id w1)
                 = fst (get_user_positions user_id w) ++
                   [{| pos_symbol := upper symbol; pos_amount := amount;
                       pos_buy_price := buy_price;
                       pos_created_at := created_at |}]).
  { subst w1. rewrite add_user_position_unfold.
    rewrite get_user_positions_unfold at 1. cbn [fst].
    rewrite load_after_save, lookup_insert_eq. reflexivity. }
  split.
  - rewrite remove_reply_spec, Hget.
    destruct (Nat.eqb_spec
                (length (filter (fun p => pos_symbol p ≠ upper arg)
                           (fst (get_user_positions user_id w) ++
                            [{| pos_symbol := upper symbol; pos_amount := amount;
                                pos_buy_price := buy_price;
                                pos_created_at := created_at |}])))
                (length (fst (get_user_positions user_id w) ++
                         [{| pos_symbol := upper symbol; pos_amount := amount;
                             pos_buy_price := buy_price;
                             pos_created_at := created_at |}])))
      as [Heq|_]; [|reflexivity].
    pose proof (proj1 (filter_keeps_all (fun p => pos_symbol p ≠ upper arg) _)
                  Heq) as Hall.
    clear Heq. rename Hall into Heq.
    exfalso. apply (Heq {| pos_symbol := upper symbol; pos_amount := amount;
                           pos_buy_price := buy_price;
                           pos_created_at := created_at |}).
    + apply elem_of_app. right. apply list_elem_of_here.
    + cbn. symmetry. exact Hsym.
  - rewrite remove_get, Hget, filter_app.
    rewrite (filter_cons_False _ _ []); [apply app_nil_r|].
    cbn. intros Hne. apply Hne. symmetry. exact Hsym.
Qed.

Lemma X4_add_then_remove_witness :
  fst (remove ["Sol"%string] (Some 42)
         (snd (add_user_position 42 "sOL" (of_Z 1) (of_Z 9) "t" Cases.book)))
    = RemovedAll (upper "Sol") /\
  fst (get_user_positions 42
         (snd (remove ["Sol"%string] (Some 42)
                 (snd (add_user_position 42 "sOL" (of_Z 1) (of_Z 9) "t" Cases.book)))))
    = filter (fun p => pos_symbol p ≠ upper "Sol")
        (fst (get_user_positions 42 Cases.book)).
Proof.
  apply (X4_add_then_remove 42 "sOL" "Sol" (of_Z 1) (of_Z 9) "t" Cases.book).
  vm_compute. reflexivity.
Defined.

(** X5. After remove-by-symbol the account holds exactly its earlier
    positions of other symbols, whatever the reply; removing the same
    symbol again finds no match and changes nothing. *)
Theorem X5_remove_filters_and_is_idempotent (arg : string) (user_id : Z) (w : world) :
  let w1 := snd (remove [arg] (Some user_id) w) in
  fst (get_user_positions user_id w1)
    = filter (fun p => pos_symbol p ≠ upper arg)
        (fst (get_user_positions user_id w)) /\
  remove [arg] (Some user_id) w1 = (RemoveNoMatch (upper arg), w1).
Proof.
  intros w1. split; [apply remove_get|].
  rewrite (remove_unfold arg user_id w1). cbv zeta.
  change (default [] (fst (load_all_positions w1) !! user_key user_id))
    with (fst (get_user_positions user_id w1)).
  subst w1. rewrite remove_get, filter_filter_same, Nat.eqb_refl. reflexivity.
Qed.

(** X6. Clear reports a cleared portfolio exactly when the account had at
    least one position, and then keeps the account's key with an empty
    list; on an account without positions it changes nothing; a second
    clear always finds nothing to clear. *)
Theorem X6_clear_reply_and_repeat (user_id : Z) (w : world) :
  let reply := fst (clear (Some user_id) w) in
  let w1 := snd (clear (Some user_id) w) in
  (reply = Cleared <-> fst (get_user_positions user_id w) ≠ []) /\
  (reply = Cleared ->
     fst (load_all_positions w1) !! user_key user_id = Some []) /\
  (fst (get_user_positions user_id w) = [] -> reply = ClearNothing /\ w1 = w) /\
  clear (Some user_id) w1 = (ClearNothing, w1).
Proof.
  intros reply w1. subst reply w1.
  rewrite (clear_unfold user_id w). cbv zeta.
  rewrite get_user_positions_unfold. cbn [fst].
  destruct (fst (load_all_positions w) !! user_key user_id) as [[|p ps]|] eqn:Hk;
    cbn [fst snd default].
  - split; [split; [discriminate|intros H; destruct H; reflexivity]|].
    split; [discriminate|]. split; [auto|].
    rewrite clear_unfold. cbv zeta. rewrite Hk. reflexivity.
  - split; [split; [discriminate|reflexivity]|].
    split; [intros _; rewrite load_after_save; apply lookup_insert_eq|].
    split; [discriminate|].
    rewrite clear_unfold. cbv zeta.
    rewrite load_after_save, lookup_insert_eq. reflexivity.
  - split; [split; [discriminate|intros H; destruct H; reflexivity]|].
    split; [discriminate|]. split; [auto|].
    rewrite clear_unfold. cbv zeta. rewrite Hk. reflexivity.
Qed.

(** X7. Remove and clear change nothing but the positions file: both
    caches, the clock and the request log stay as they were for every
    argument list and user; without a user, and for remove without
    exactly one argument, the whole world stays as it was. *)
Theorem X7_remove_clear_footprint (args : list string) (user : option Z) (w : world) :
  let w1 := snd (remove args user w) in
  let w2 := snd (clear user w) in
  (PRICE_CACHE w1 = PRICE_CACHE w /\ MCAP_CACHE w1 = MCAP_CACHE w /\
   clock_reads w1 = clock_reads w /\ requests w1 = requests w) /\
  (PRICE_CACHE w2 = PRICE_CACHE w /\ MCAP_CACHE w2 = MCAP_CACHE w /\
   clock_reads w2 = clock_reads w /\ requests w2 = requests w) /\
  (length args ≠ 1%nat -> remove args user w = (RemoveUsage, w)) /\
  (user = None -> w1 = w /\ w2 = w).
Proof.
  intros w1 w2. subst w1 w2. split; [|split; [|split]].
  - destruct args as [|arg [|? ?]]; try (cbn; tauto).
    destruct user as [user_id|]; [|cbn; tauto].
    rewrite remove_unfold. cbv zeta. destruct (Nat.eqb _ _); cbn; tauto.
  - destruct user as [user_id|]; [|cbn; tauto].
    rewrite clear_unfold. cbv zeta.
    destruct (_ !! user_key user_id) as [[|? ?]|]; cbn; tauto.
  - intros Hlen. destruct args as [|arg [|? ?]]; try reflexivity.
    cbn in Hlen. congruence.
  - intros ->. split; [|reflexivity].
    destruct args as [|arg [|? ?]]; reflexivity.
Qed.

Lemma X7_remove_clear_footprint_witness :
  remove ["a"%string; "b"%string] (Some 42) Cases.book = (RemoveUsage, Cases.book) /\
  snd (remove ["sol"%string] None Cases.book) = Cases.book /\
  snd (clear None Cases.book) = Cases.book.
Proof.
  destruct (X7_remove_clear_footprint ["a"%string; "b"%string] (Some 42) Cases.book)
    as (_ & _ & Husage & _).
  destruct (X7_remove_clear_footprint ["sol"%string] None Cases.book)
    as (_ & _ & _ & Hnone).
  split; [apply Husage; cbn; lia|]. apply Hnone. reflexivity.
Defined.

(** X8. When the positions file is missing or cannot be decoded, adding a
    position writes a fresh file that holds that one position only:
    whatever the undecodable file contained is replaced. *)
Theorem X8_add_replaces_unreadable_file (user_id : Z) (symbol : string)
    (amount buy_price : float) (created_at : string) (w : world) :
  POSITIONS_FILE w = NoFile \/ POSITIONS_FILE w = Unreadable ->
  POSITIONS_FILE
    (snd (add_user_position user_id symbol amount buy_price created_at w))
  = Stored {[ user_key user_id :=
                [{| pos_symbol := upper symbol; pos_amount := amount;
                    pos_buy_price := buy_price;
                    pos_created_at := created_at |}] ]}.
Proof.
  intros Hfile. rewrite add_user_position_unfold.
  rewrite get_user_positions_unfold. cbn [fst].
  unfold load_all_positions. cbn [fst set_POSITIONS_FILE POSITIONS_FILE].
  destruct Hfile as [-> | ->]; rewrite lookup_empty; cbn [default app];
    rewrite insert_empty; reflexivity.
Qed.

Lemma X8_add_replaces_unreadable_file_witness :
  POSITIONS_FILE
    (snd (add_user_position 7 "ada" (of_Z 5) (of_Z 2) "t"
            (set_POSITIONS_FILE Unreadable Cases.book)))
  = Stored {[ user_key 7 :=
                [{| pos_symbol := upper "ada"; pos_amount := of_Z 5;
                    pos_buy_price := of_Z 2; pos_created_at := "t" |}] ]}.
Proof.
  apply (X8_add_replaces_unreadable_file 7 "ada" (of_Z 5) (of_Z 2) "t"
           (set_POSITIONS_FILE Unreadable Cases.book)).
  right. reflexivity.
Defined.

(** ** Quote caches: what a lookup leaves behind *)

Section LookupFootprint.

Variable P : provider.

(** What resolution may add to the request log. *)
Lemma resolve_requests (symbol : string) (w : world) :
  exists new,
    requests (snd (resolve_token_id P symbol w)) = requests w ++ new /\
    (new = [] \/ new = [Search (strip (lower symbol))]).
Proof.
  destruct (resolve_token_id_frame P symbol w) as (_ & _ & _ & _ & [Hr|Hr]).
  - exists []. rewrite app_nil_r. auto.
  - eexists. split; [exact Hr|]. auto.
Qed.

Lemma refresh_price_footprint (symbol : string) (now : float) (w : world) :
  let r := fst (refresh_price P symbol now w) in
  let w' := snd (refresh_price P symbol now w) in
  MCAP_CACHE w' = MCAP_CACHE w /\ POSITIONS_FILE w' = POSITIONS_FILE w /\
  clock_reads w' = clock_reads w /\
  (forall k, k ≠ upper symbol -> PRICE_CACHE w' !! k = PRICE_CACHE w !! k) /\
  (forall x, r = Some x ->
     PRICE_CACHE w' !! upper symbol = Some {| value := x; ts := now |}) /\
  (r = None -> PRICE_CACHE w' = PRICE_CACHE w) /\
  exists new,
    requests w' = requests w ++ new /\ (length new <= 2)%nat /\
    Forall (fun q => is_search q || is_price_fetch q = true) new.
Proof.
  unfold refresh_price.
  destruct (resolve_token_id_frame P symbol w) as (Hp & Hm & Hf & Hc & _).
  destruct (resolve_requests symbol w) as (new & Hr & Hnew).
  assert (Hlog : forall extra,
            (length extra <= 1)%nat ->
            Forall (fun q => is_search q || is_price_fetch q = true) extra ->
            exists new',
              requests (snd (resolve_token_id P symbol w)) ++ extra
                = requests w ++ new' /\ (length new' <= 2)%nat /\
              Forall (fun q => is_search q || is_price_fetch q = true) new').
  { intros extra Hlen Hall. exists (new ++ extra).
    rewrite Hr, <- app_assoc. split; [reflexivity|].
    rewrite length_app. split.
    - destruct Hnew as [-> | ->]; cbn; lia.
    - apply Forall_app. split; [|exact Hall].
      destruct Hnew as [-> | ->]; repeat constructor. }
  destruct (usable _) as [id|]; cbn [fst snd].
  - destruct (simple_price_usd P _ id) as [x|]; cbn [fst snd];
      cbn [PRICE_CACHE MCAP_CACHE POSITIONS_FILE clock_reads requests
           set_PRICE_CACHE sent].
    + split; [exact Hm|]. split; [exact Hf|]. split; [exact Hc|].
      split; [intros k Hk; rewrite lookup_insert_ne by congruence;
              rewrite Hp; reflexivity|].
      split; [intros y Hy; assert (y = x) as -> by congruence;
              apply lookup_insert_eq|].
      split; [discriminate|].
      apply Hlog; [cbn; lia | repeat constructor].
    + split; [exact Hm|]. split; [exact Hf|]. split; [exact Hc|].
      split; [intros k _; rewrite Hp; reflexivity|].
      split; [discriminate|]. split; [intros _; exact Hp|].
      apply Hlog; [cbn; lia | repeat constructor].
  - split; [exact Hm|]. split; [exact Hf|]. split; [exact Hc|].
    split; [intros k _; rewrite Hp; reflexivity|].
    split; [discriminate|]. split; [intros _; exact Hp|].
    rewrite <- (app_nil_r (requests (snd (resolve_token_id P symbol w)))).
    apply Hlog; [cbn; lia | constructor].
Qed.

Lemma refresh_mcap_footprint (symbol : string) (now : float) (w : world) :
  let r := fst (refresh_mcap P symbol now w) in
  let w' := snd (refresh_mcap P symbol now w) in
  PRICE_CACHE w' = PRICE_CACHE w /\ POSITIONS_FILE w' = POSITIONS_FILE w /\
  clock_reads w' = clock_reads w /\
  (forall k, k ≠ upper symbol -> MCAP_CACHE w' !! k = MCAP_CACHE w !! k) /\
  (forall x, r = Some x ->
     MCAP_CACHE w' !! upper symbol = Some {| value := x; ts := now |}) /\
  (r = None -> MCAP_CACHE w' = MCAP_CACHE w) /\
  exists new,
    requests w' = requests w ++ new /\ (length new <= 2)%nat /\
    Forall (fun q => is_search q || is_mcap_fetch q = true) new.
Proof.
  unfold refresh_mcap.
  destruct (resolve_token_id_frame P symbol w) as (Hp & Hm & Hf & Hc & _).
  destruct (resolve_requests symbol w) as (new & Hr & Hnew).
  assert (Hlog : forall extra,
            (length extra <= 1)%nat ->
            Forall (fun q => is_search q || is_mcap_fetch q = true) extra ->
            exists new',
              requests (snd (resolve_token_id P symbol w)) ++ extra
                = requests w ++ new' /\ (length new' <= 2)%nat /\
              Forall (fun q => is_search q || is_mcap_fetch q = true) new').
  { intros extra Hlen Hall. exists (new ++ extra).
    rewrite Hr, <- app_assoc. split; [reflexivity|].
    rewrite length_app. split.
    - destruct Hnew as [-> | ->]; cbn; lia.
    - apply Forall_app. split; [|exact Hall].
      destruct Hnew as [-> | ->]; repeat constructor. }
  destruct (usable _) as [id|]; cbn [fst snd].
  - destruct (markets_market_cap P _ id) as [x|]; cbn [fst snd];
      cbn [PRICE_CACHE MCAP_CACHE POSITIONS_FILE clock_reads requests
           set_MCAP_CACHE sent].
    + split; [exact Hp|]. split; [exact Hf|]. split; [exact Hc|].
      split; [intros k Hk; rewrite lookup_insert_ne by congruence;
              rewrite Hm; reflexivity|].
      split; [intros y Hy; assert (y = x) as -> by congruence;
              apply lookup_insert_eq|].
      split; [discriminate|].
      apply Hlog; [cbn; lia | repeat constructor].
    + split; [exact Hp|]. split; [exact Hf|]. split; [exact Hc|].
      split; [intros k _; rewrite Hm; reflexivity|].
      split; [discriminate|]. split; [intros _; exact Hm|].
      apply Hlog; [cbn; lia | repeat constructor].
  - split; [exact Hp|]. split; [exact Hf|]. split; [exact Hc|].
    split; [intros k _; rewrite Hm; reflexivity|].
    split; [discriminate|]. split; [intros _; exact Hm|].
    rewrite <- (app_nil_r (requests (snd (resolve_token_id P symbol w)))).
    apply Hlog; [cbn; lia | constructor].
Qed.

Lemma price_lookup_footprint (symbol : string) (w : world) :
  let w' := snd (get_current_price_usd P symbol w) in
  MCAP_CACHE w' = MCAP_CACHE w /\ POSITIONS_FILE w' = POSITIONS_FILE w /\
  clock_reads w' = S (clock_reads w) /\
  (forall k, k ≠ upper symbol -> PRICE_CACHE w' !! k = PRICE_CACHE w !! k) /\
  exists new,
    requests w' = requests w ++ new /\ (length new <= 2)%nat /\
    Forall (fun q => is_search q || is_price_fetch q = true) new.
Proof.
  rewrite get_current_price_usd_unfold. cbv zeta.
  pose proof (refresh_price_footprint symbol (time_time P (clock_reads w)) (tick w))
    as (Hm & Hf & Hc & Hk & _ & _ & Hnew).
  assert (Hhit : MCAP_CACHE (tick w) = MCAP_CACHE w /\
                 POSITIONS_FILE (tick w) = POSITIONS_FILE w /\
                 clock_reads (tick w) = S (clock_reads w) /\
                 (forall k, k ≠ upper symbol ->
                            PRICE_CACHE (tick w) !! k = PRICE_CACHE w !! k) /\
                 exists new,
                   requests (tick w) = requests w ++ new /\ (length new <= 2)%nat /\
                   Forall (fun q => is_search q || is_price_fetch q = true) new).
  { repeat split. exists []. cbn. rewrite app_nil_r. repeat split; [lia|constructor]. }
  destruct (PRICE_CACHE w !! upper symbol) as [q|];
    [destruct (ltb _ PRICE_TTL); [exact Hhit|]|];
    (split; [exact Hm|]; split; [exact Hf|]; split; [exact Hc|];
     split; [exact Hk|]; exact Hnew).
Qed.

Lemma mcap_lookup_footprint (symbol : string) (w : world) :
  let w' := snd (get_token_market_cap P symbol w) in
  PRICE_CACHE w' = PRICE_CACHE w /\ POSITIONS_FILE w' = POSITIONS_FILE w /\
  clock_reads w' = S (clock_reads w) /\
  (forall k, k ≠ upper symbol -> MCAP_CACHE w' !! k = MCAP_CACHE w !! k) /\
  exists new,
    requests w' = requests w ++ new /\ (length new <= 2)%nat /\
    Forall (fun q => is_search q || is_mcap_fetch q = true) new.
Proof.
  rewrite get_token_market_cap_unfold. cbv zeta.
  pose proof (refresh_mcap_footprint symbol (time_time P (clock_reads w)) (tick w))
    as (Hm & Hf & Hc & Hk & _ & _ & Hnew).
  assert (Hhit : PRICE_CACHE (tick w) = PRICE_CACHE w /\
                 POSITIONS_FILE (tick w) = POSITIONS_FILE w /\
                 clock_reads (tick w) = S (clock_reads w) /\
                 (forall k, k ≠ upper symbol ->
                            MCAP_CACHE (tick w) !! k = MCAP_CACHE w !! k) /\
                 exists new,
                   requests (tick w) = requests w ++ new /\ (length new <= 2)%nat /\
                   Forall (fun q => is_search q || is_mcap_fetch q = true) new).
  { repeat split. exists []. cbn. rewrite app_nil_r. repeat split; [lia|constructor]. }
  destruct (MCAP_CACHE w !! upper symbol) as [q|];
    [destruct (ltb _ MCAP_TTL); [exact Hhit|]|];
    (split; [exact Hm|]; split; [exact Hf|]; split; [exact Hc|];
     split; [exact Hk|]; exact Hnew).
Qed.

End LookupFootprint.

(** X9. A price lookup reads the clock exactly once, appends at most two
    requests (a search, a price fetch) to the log and keeps what was
    logged, changes no entry of the price cache other than the one of the
    uppercased symbol, and never touches the market-cap cache or the
    positions file.  A market-cap lookup does the same with the roles of
    the two caches exchanged. *)
Theorem X9_lookup_footprint (P : provider) (symbol : string) (w : world) :
  (let w' := snd (get_current_price_usd P symbol w) in
   MCAP_CACHE w' = MCAP_CACHE w /\ POSITIONS_FILE w' = POSITIONS_FILE w /\
   clock_reads w' = S (clock_reads w) /\
   (forall k, k ≠ upper symbol -> PRICE_CACHE w' !! k = PRICE_CACHE w !! k) /\
   exists new,
     requests w' = requests w ++ new /\ (length new <= 2)%nat /\
     Forall (fun q => is_search q || is_price_fetch q = true) new) /\
  (let w' := snd (get_token_market_cap P symbol w) in
   PRICE_CACHE w' = PRICE_CACHE w /\ POSITIONS_FILE w' = POSITIONS_FILE w /\
   clock_reads w' = S (clock_reads w) /\
   (forall k, k ≠ upper symbol -> MCAP_CACHE w' !! k = MCAP_CACHE w !! k) /\
   exists new,
     requests w' = requests w ++ new /\ (length new <= 2)%nat /\
     Forall (fun q => is_search q || is_mcap_fetch q = true) new).
Proof. split; [apply price_lookup_footprint | apply mcap_lookup_footprint]. Qed.

(** X10. Whenever a price lookup returns a value, the price cache holds
    that value for the uppercased symbol afterwards (stamped with the time
    of this lookup when there was no entry before), and the next lookup of
    any spelling with the same uppercased form, read less than the TTL
    after the entry's timestamp, returns the same value without a
    request. *)
Theorem X10_price_returned_is_cached (P : provider) (symbol : string)
    (w : world) (x : float) :
  fst (get_current_price_usd P symbol w) = Some x ->
  let w1 := snd (get_current_price_usd P symbol w) in
  exists q,
    PRICE_CACHE w1 !! upper symbol = Some q /\ value q = x /\
    (PRICE_CACHE w !! upper symbol = None -> ts q = time_time P (clock_reads w)) /\
    forall symbol',
      upper symbol' = upper symbol ->
      ltb (sub (time_time P (clock_reads w1)) (ts q)) PRICE_TTL = true ->
      get_current_price_usd P symbol' w1 = (Some x, tick w1).
Proof.
  intros Hx w1.
  assert (Hentry : exists q,
            PRICE_CACHE w1 !! upper symbol = Some q /\ value q = x /\
            (PRICE_CACHE w !! upper symbol = None ->
             ts q = time_time P (clock_reads w))).
  { subst w1. revert Hx. rewrite get_current_price_usd_unfold. cbv zeta.
    pose proof (refresh_price_footprint P symbol (time_time P (clock_reads w))
                  (tick w)) as (_ & _ & _ & _ & Hsome & _).
    destruct (PRICE_CACHE w !! upper symbol) as [q|] eqn:Hq;
      [destruct (ltb _ PRICE_TTL)|].
    - cbn [fst snd]. intros Hv. exists q. cbn [tick PRICE_CACHE].
      split; [exact Hq|]. split; [congruence|discriminate].
    - intros Hr. eexists. split; [apply Hsome, Hr|]. split; [reflexivity|discriminate].
    - intros Hr. eexists. split; [apply Hsome, Hr|]. split; reflexivity. }
  destruct Hentry as (q & Hq & Hv & Hts). exists q.
  split; [exact Hq|]. split; [exact Hv|]. split; [exact Hts|].
  intros symbol' Hup Hfresh. rewrite get_current_price_usd_unfold. cbv zeta.
  rewrite Hup, Hq, Hfresh, Hv. reflexivity.
Qed.

Lemma X10_price_returned_is_cached_witness :
  exists q,
    PRICE_CACHE (snd (get_current_price_usd (brisk Cases.patchy) "eth"%string Scenario.w0))
      !! upper "eth" = Some q /\
    value q = of_Z 2000 /\
    get_current_price_usd (brisk Cases.patchy) "ETH"%string
      (snd (get_current_price_usd (brisk Cases.patchy) "eth"%string Scenario.w0))
    = (Some (of_Z 2000),
       tick (snd (get_current_price_usd (brisk Cases.patchy) "eth"%string Scenario.w0))).
Proof.
  destruct (X10_price_returned_is_cached (brisk Cases.patchy) "eth" Scenario.w0 (of_Z 2000)
              ltac:(vm_compute; reflexivity)) as (q & Hq & Hv & Hts & Hnext).
  exists q. split; [exact Hq|]. split; [exact Hv|].
  apply Hnext; [vm_compute; reflexivity|].
  rewrite (Hts ltac:(vm_compute; reflexivity)). vm_compute. reflexivity.
Defined.

(** X11. Whenever a market-cap lookup returns a value, the market-cap
    cache holds that value for the uppercased symbol afterwards, and the
    next lookup of any spelling with the same uppercased form, read less
    than the TTL after the entry's timestamp, returns the same value
    without a request. *)
Theorem X11_mcap_returned_is_cached (P : provider) (symbol : string)
    (w : world) (x : float) :
  fst (get_token_market_cap P symbol w) = Some x ->
  let w1 := snd (get_token_market_cap P symbol w) in
  exists q,
    MCAP_CACHE w1 !! upper symbol = Some q /\ value q = x /\
    (MCAP_CACHE w !! upper symbol = None -> ts q = time_time P (clock_reads w)) /\
    forall symbol',
      upper symbol' = upper symbol ->
      ltb (sub (time_time P (clock_reads w1)) (ts q)) MCAP_TTL = true ->
      get_token_market_cap P symbol' w1 = (Some x, tick w1).
Proof.
  intros Hx w1.
  assert (Hentry : exists q,
            MCAP_CACHE w1 !! upper symbol = Some q /\ value q = x /\
            (MCAP_CACHE w !! upper symbol = None ->
             ts q = time_time P (clock_reads w))).
  { subst w1. revert Hx. rewrite get_token_market_cap_unfold. cbv zeta.
    pose proof (refresh_mcap_footprint P symbol (time_time P (clock_reads w))
                  (tick w)) as (_ & _ & _ & _ & Hsome & _).
    destruct (MCAP_CACHE w !! upper symbol) as [q|] eqn:Hq;
      [destruct (ltb _ MCAP_TTL)|].
    - cbn [fst snd]. intros Hv. exists q. cbn [tick MCAP_CACHE].
      split; [exact Hq|]. split; [congruence|discriminate].
    - intros Hr. eexists. split; [apply Hsome, Hr|]. split; [reflexivity|discriminate].
    - intros Hr. eexists. split; [apply Hsome, Hr|]. split; reflexivity. }
  destruct Hentry as (q & Hq & Hv & Hts). exists q.
  split; [exact Hq|]. split; [exact Hv|]. split; [exact Hts|].
  intros symbol' Hup Hfresh. rewrite get_token_market_cap_unfold. cbv zeta.
  rewrite Hup, Hq, Hfresh, Hv. reflexivity.
Qed.

Lemma X11_mcap_returned_is_cached_witness :
  exists q,
    MCAP_CACHE (snd (get_token_market_cap Cases.patchy "btc"%string Scenario.w0))
      !! upper "btc" = Some q /\
    value q = of_Z 900000000 /\
    get_token_market_cap Cases.patchy "Btc"%string
      (snd (get_token_market_cap Cases.patchy "btc"%string Scenario.w0))
    = (Some (of_Z 900000000),
       tick (snd (get_token_market_cap Cases.patchy "btc"%string Scenario.w0))).
Proof.
  destruct (X11_mcap_returned_is_cached Cases.patchy "btc" Scenario.w0
              (of_Z 900000000) ltac:(vm_compute; reflexivity))
    as (q & Hq & Hv & Hts & Hnext).
  exists q. split; [exact Hq|]. split; [exact Hv|].
  apply Hnext; [vm_compute; reflexivity|].
  rewrite (Hts ltac:(vm_compute; reflexivity)). vm_compute. reflexivity.
Defined.

(** ** Lookups that are never cached *)

Section Uncached.

Variable P : provider.

Lemma get_historical_price_usd_unfold (symbol date_str : string) (w : world) :
  get_historical_price_usd P symbol date_str w =
    let tid := fst (resolve_token_id P symbol w) in
    let w1 := snd (resolve_token_id P symbol w) in
    match usable tid, to_cg_date P date_str with
    | Some id, Some cg_date =>
        (history_price_usd P (length (requests w1)) id cg_date,
         sent (History id cg_date) w1)
    | _, _ => (None, w1)
    end.
Proof.
  unfold get_historical_price_usd, bind, safe_get, ret.
  destruct (resolve_token_id P symbol w) as [tid w1]. cbn [fst snd].
  destruct (usable tid); [|reflexivity].
  destruct (to_cg_date P date_str); reflexivity.
Qed.

Lemma get_token_name_unfold (symbol : string) (w : world) :
  get_token_name P symbol w =
    let tid := fst (resolve_token_id P symbol w) in
    let w1 := snd (resolve_token_id P symbol w) in
    match usable tid with
    | Some id => (coin_name P (length (requests w1)) id, sent (CoinInfo id) w1)
    | None => (None, w1)
    end.
Proof.
  unfold get_token_name, bind, safe_get, ret.
  destruct (resolve_token_id P symbol w) as [tid w1]. cbn [fst snd].
  destruct (usable tid); reflexivity.
Qed.

Lemma historical_footprint (symbol date_str : string) (w : world) :
  let w' := snd (get_historical_price_usd P symbol date_str w) in
  PRICE_CACHE w' = PRICE_CACHE w /\ MCAP_CACHE w' = MCAP_CACHE w /\
  POSITIONS_FILE w' = POSITIONS_FILE w /\ clock_reads w' = clock_reads w /\
  exists new, requests w' = requests w ++ new /\ (length new <= 2)%nat.
Proof.
  rewrite get_historical_price_usd_unfold. cbv zeta.
  destruct (resolve_token_id_frame P symbol w) as (Hp & Hm & Hf & Hc & _).
  destruct (resolve_requests P symbol w) as (new & Hr & Hnew).
  destruct (usable _) as [id|]; [destruct (to_cg_date P date_str) as [cg|]|];
    cbn [fst snd PRICE_CACHE MCAP_CACHE POSITIONS_FILE clock_reads requests sent];
    (split; [exact Hp|]; split; [exact Hm|]; split; [exact Hf|];
     split; [exact Hc|]).
  - exists (new ++ [History id cg]). rewrite Hr, <- app_assoc.
    split; [reflexivity|]. destruct Hnew as [-> | ->]; cbn; lia.
  - exists new. split; [exact Hr|]. destruct Hnew as [-> | ->]; cbn; lia.
  - exists new. split; [exact Hr|]. destruct Hnew as [-> | ->]; cbn; lia.
Qed.

Lemma token_name_footprint (symbol : string) (w : world) :
  let w' := snd (get_token_name P symbol w) in
  PRICE_CACHE w' = PRICE_CACHE w /\ MCAP_CACHE w' = MCAP_CACHE w /\
  POSITIONS_FILE w' = POSITIONS_FILE w /\ clock_reads w' = clock_reads w /\
  exists new, requests w' = requests w ++ new /\ (length new <= 2)%nat.
Proof.
  rewrite get_token_name_unfold. cbv zeta.
  destruct (resolve_token_id_frame P symbol w) as (Hp & Hm & Hf & Hc & _).
  destruct (resolve_requests P symbol w) as (new & Hr & Hnew).
  destruct (usable _) as [id|];
    cbn [fst snd PRICE_CACHE MCAP_CACHE POSITIONS_FILE clock_reads requests sent];
    (split; [exact Hp|]; split; [exact Hm|]; split; [exact Hf|];
     split; [exact Hc|]).
  - exists (new ++ [CoinInfo id]). rewrite Hr, <- app_assoc.
    split; [reflexivity|]. destruct Hnew as [-> | ->]; cbn; lia.
  - exists new. split; [exact Hr|]. destruct Hnew as [-> | ->]; cbn; lia.
Qed.

Lemma count_issued_after_resolve (kind : request -> bool) (symbol : string)
    (w : world) (extra : list request) :
  (forall q, kind (Search q) = false) ->
  count_fetches kind
    (drop (length (requests w))
       (requests (snd (resolve_token_id P symbol w)) ++ extra))
  = count_fetches kind extra.
Proof.
  intros Hkind. destruct (resolve_requests P symbol w) as (new & Hr & Hnew).
  rewrite Hr, <- app_assoc, drop_app_length. unfold count_fetches.
  destruct Hnew as [-> | ->]; cbn [app List.filter]; [reflexivity|].
  rewrite Hkind. reflexivity.
Qed.

End Uncached.

(** X12. A historical price is never cached and never touches the caches,
    the clock or the positions file.  When the symbol does not resolve or
    the date is not a valid YYYY-MM-DD date the lookup is Unavailable and
    no history request is sent; otherwise exactly one history request is
    sent, in every world, and the lookup returns the provider's reply to
    it. *)
Theorem X12_historical_price_uncached (P : provider) (symbol date_str : string)
    (w : world) :
  let r := fst (get_historical_price_usd P symbol date_str w) in
  let w' := snd (get_historical_price_usd P symbol date_str w) in
  let tid := usable (fst (resolve_token_id P symbol w)) in
  let w1 := snd (resolve_token_id P symbol w) in
  (PRICE_CACHE w' = PRICE_CACHE w /\ MCAP_CACHE w' = MCAP_CACHE w /\
   POSITIONS_FILE w' = POSITIONS_FILE w /\ clock_reads w' = clock_reads w) /\
  (tid = None \/ to_cg_date P date_str = None ->
     r = None /\ w' = w1 /\ count_fetches is_history (issued w w') = 0%nat) /\
  (forall id cg_date, tid = Some id -> to_cg_date P date_str = Some cg_date ->
     r = history_price_usd P (length (requests w1)) id cg_date /\
     requests w' = requests w1 ++ [History id cg_date] /\
     count_fetches is_history (issued w w') = 1%nat).
Proof.
  intros r w' tid w1.
  split; [|split].
  - destruct (historical_footprint P symbol date_str w) as (Hp & Hm & Hf & Hc & _).
    auto.
  - intros Hfail. subst r w' tid w1. unfold issued.
    rewrite get_historical_price_usd_unfold. cbv zeta.
    assert (Hcount : count_fetches is_history
                       (drop (length (requests w))
                          (requests (snd (resolve_token_id P symbol w)))) = 0%nat).
    { rewrite <- (app_nil_r (requests (snd (resolve_token_id P symbol w)))).
      rewrite count_issued_after_resolve; reflexivity. }
    destruct (usable _) as [id|]; [destruct (to_cg_date P date_str) as [cg|]|];
      cbn [fst snd]; auto.
    destruct Hfail; discriminate.
  - intros id cg Hid Hcg. subst r w' tid w1. unfold issued.
    rewrite get_historical_price_usd_unfold. cbv zeta. rewrite Hid, Hcg.
    cbn [fst snd requests sent]. split; [reflexivity|]. split; [reflexivity|].
    rewrite count_issued_after_resolve; reflexivity.
Qed.

Lemma X12_historical_price_uncached_witness :
  (fst (get_historical_price_usd Scenario.doubling "btc"%string "01/01/2023"%string
          Scenario.w0) = None /\
   count_fetches is_history
     (issued Scenario.w0
        (snd (get_historical_price_usd Scenario.doubling "btc"%string
                "01/01/2023"%string Scenario.w0))) = 0%nat) /\
  count_fetches is_history
    (issued (snd (get_historical_price_usd Scenario.doubling "btc"%string
                    "2023-01-01"%string Scenario.w0))
       (snd (get_historical_price_usd Scenario.doubling "btc"%string
               "2023-01-01"%string
               (snd (get_historical_price_usd Scenario.doubling "btc"%string
                       "2023-01-01"%string Scenario.w0))))) = 1%nat.
Proof.
  split.
  - destruct (X12_historical_price_uncached Scenario.doubling "btc" "01/01/2023"
                Scenario.w0) as (_ & Hbad & _).
    destruct (Hbad ltac:(right; vm_compute; reflexivity)) as (Hr & _ & Hn).
    split; assumption.
  - destruct (X12_historical_price_uncached Scenario.doubling "btc" "2023-01-01"
                (snd (get_historical_price_usd Scenario.doubling "btc"%string
                        "2023-01-01"%string Scenario.w0))) as (_ & _ & Hok).
    apply (Hok "bitcoin"%string "01-01-2023"%string);
      vm_compute; reflexivity.
Defined.

(** X13. The display-name lookup never touches the caches, the clock or
    the positions file.  When the symbol does not resolve it is Unavailable
    and no detail request is sent; otherwise exactly one detail request is
    sent and the name is the provider's reply to it. *)
Theorem X13_token_name_lookup (P : provider) (symbol : string) (w : world) :
  let r := fst (get_token_name P symbol w) in
  let w' := snd (get_token_name P symbol w) in
  let tid := usable (fst (resolve_token_id P symbol w)) in
  let w1 := snd (resolve_token_id P symbol w) in
  (PRICE_CACHE w' = PRICE_CACHE w /\ MCAP_CACHE w' = MCAP_CACHE w /\
   POSITIONS_FILE w' = POSITIONS_FILE w /\ clock_reads w' = clock_reads w) /\
  (tid = None ->
     r = None /\ w' = w1 /\ count_fetches is_coin_info (issued w w') = 0%nat) /\
  (forall id, tid = Some id ->
     r = coin_name P (length (requests w1)) id /\
     requests w' = requests w1 ++ [CoinInfo id] /\
     count_fetches is_coin_info (issued w w') = 1%nat).
Proof.
  intros r w' tid w1.
  split; [|split].
  - destruct (token_name_footprint P symbol w) as (Hp & Hm & Hf & Hc & _). auto.
  - intros Hfail. subst r w' tid w1. unfold issued.
    rewrite get_token_name_unfold. cbv zeta. rewrite Hfail. cbn [fst snd].
    split; [reflexivity|]. split; [reflexivity|].
    rewrite <- (app_nil_r (requests (snd (resolve_token_id P symbol w)))).
    rewrite count_issued_after_resolve; reflexivity.
  - intros id Hid. subst r w' tid w1. unfold issued.
    rewrite get_token_name_unfold. cbv zeta. rewrite Hid.
    cbn [fst snd requests sent]. split; [reflexivity|]. split; [reflexivity|].
    rewrite count_issued_after_resolve; reflexivity.
Qed.

Lemma X13_token_name_lookup_witness :
  (fst (get_token_name Scenario.doubling "zzz"%string Scenario.w0) = None /\
   count_fetches is_coin_info
     (issued Scenario.w0 (snd (get_token_name Scenario.doubling "zzz"%string
                                 Scenario.w0))) = 0%nat) /\
  fst (get_token_name Scenario.doubling "btc"%string Scenario.w0)
    = Some "Bitcoin"%string.
Proof.
  split.
  - destruct (X13_token_name_lookup Scenario.doubling "zzz" Scenario.w0)
      as (_ & Hfail & _).
    destruct (Hfail ltac:(vm_compute; reflexivity)) as (Hr & _ & Hn).
    split; assumption.
  - destruct (X13_token_name_lookup Scenario.doubling "btc" Scenario.w0)
      as (_ & _ & Hok).
    destruct (Hok "bitcoin"%string ltac:(vm_compute; reflexivity)) as (Hr & _).
    rewrite Hr. vm_compute. reflexivity.
Defined.

(** ** What-if and portfolio: what a run leaves behind *)

Section RunFootprint.

Variable P : provider.

Lemma price_trace_footprint (positions : list position) :
  forall w,
    let w' := snd (price_trace P positions w) in
    MCAP_CACHE w' = MCAP_CACHE w /\ POSITIONS_FILE w' = POSITIONS_FILE w /\
    clock_reads w' = (clock_reads w + length positions)%nat /\
    exists new,
      requests w' = requests w ++ new /\
      (length new <= 2 * length positions)%nat /\
      Forall (fun q => is_search q || is_price_fetch q = true) new.
Proof.
  induction positions as [|pos rest IH]; intros w.
  - cbn. split; [reflexivity|]. split; [reflexivity|]. split; [lia|].
    exists []. rewrite app_nil_r.
    split; [reflexivity|]. split; [cbn; lia|constructor].
  - cbn [price_trace snd length].
    destruct (price_lookup_footprint P (pos_symbol pos) w)
      as (Hm & Hf & Hc & _ & new1 & Hr1 & Hl1 & Ha1).
    destruct (IH (snd (get_current_price_usd P (pos_symbol pos) w)))
      as (Hm2 & Hf2 & Hc2 & new2 & Hr2 & Hl2 & Ha2).
    cbv zeta in *.
    split; [rewrite Hm2; exact Hm|]. split; [rewrite Hf2; exact Hf|].
    split; [rewrite Hc2, Hc; lia|].
    exists (new1 ++ new2). rewrite Hr2, Hr1, <- app_assoc.
    split; [reflexivity|]. rewrite length_app.
    split; [lia|]. apply Forall_app. split; assumption.
Qed.

Lemma priced_lines_all_missing (positions : list position) :
  forall idx prices,
    Forall (fun r => r = None) prices -> priced_lines idx positions prices = [].
Proof.
  induction positions as [|pos rest IH]; intros idx prices Hall; [reflexivity|].
  destruct prices as [|[p|] ps]; [reflexivity| |].
  - inversion Hall as [|? ? Hp ?]. discriminate Hp.
  - cbn. apply IH. inversion Hall. assumption.
Qed.

End RunFootprint.

(** X14. Showing a portfolio leaves the stored positions and the
    market-cap cache as they were; for an account with [n] positions it
    reads the clock [n] times and sends at most [2 * n] requests, all of
    them searches or price fetches; without a user or without positions it
    changes nothing at all. *)
Theorem X14_portfolio_footprint (P : provider) (user : option Z) (w : world) :
  let n := match user with
           | Some user_id => length (fst (get_user_positions user_id w))
           | None => 0%nat
           end in
  let w' := snd (portfolio P user w) in
  POSITIONS_FILE w' = POSITIONS_FILE w /\ MCAP_CACHE w' = MCAP_CACHE w /\
  clock_reads w' = (clock_reads w + n)%nat /\
  (n = 0%nat -> w' = w) /\
  exists new,
    requests w' = requests w ++ new /\ (length new <= 2 * n)%nat /\
    Forall (fun q => is_search q || is_price_fetch q = true) new.
Proof.
  intros n w'. subst n w'.
  assert (Hnil : POSITIONS_FILE w = POSITIONS_FILE w /\ MCAP_CACHE w = MCAP_CACHE w /\
                 clock_reads w = (clock_reads w + 0)%nat /\ (0%nat = 0%nat -> w = w) /\
                 exists new,
                   requests w = requests w ++ new /\ (length new <= 2 * 0)%nat /\
                   Forall (fun q => is_search q || is_price_fetch q = true) new).
  { split; [reflexivity|]. split; [reflexivity|]. split; [lia|].
    split; [reflexivity|]. exists []. rewrite app_nil_r.
    split; [reflexivity|]. split; [cbn; lia|constructor]. }
  destruct user as [user_id|]; [|exact Hnil].
  rewrite portfolio_unfold.
  destruct (fst (get_user_positions user_id w)) as [|pos rest] eqn:Hpos;
    [exact Hnil|].
  cbn [snd].
  destruct (price_trace_footprint P (pos :: rest) w) as (Hm & Hf & Hc & Hnew).
  split; [exact Hf|]. split; [exact Hm|]. split; [exact Hc|].
  split; [cbn; lia|]. exact Hnew.
Qed.

(** X15. When an account has positions but every current-price lookup of
    the run is unavailable, the portfolio reply is still a summary: it has
    no lines, initial and current totals of 0.0, profit 0.0, percentage 0
    and the neutral marker, not an error and not the no-positions
    message. *)
Theorem X15_portfolio_total_outage (P : provider) (user_id : Z) (w : world) :
  let positions := fst (get_user_positions user_id w) in
  positions ≠ [] ->
  Forall (fun r => r = None) (fst (price_trace P positions w)) ->
  fst (portfolio P (Some user_id) w)
  = Ok (PortfolioSummary
          {| total_initial := zero; total_current := zero;
             total_profit := zero; total_pct := zero;
             total_trend := Even; lines := [] |}).
Proof.
  intros positions Hne Hall. rewrite portfolio_unfold. fold positions.
  destruct positions as [|pos rest] eqn:Hpos; [congruence|].
  cbn [fst]. rewrite (priced_lines_all_missing _ _ _ Hall). reflexivity.
Qed.

Lemma X15_portfolio_total_outage_witness :
  fst (portfolio Scenario.outage (Some 42) Cases.book)
  = Ok (PortfolioSummary
          {| total_initial := zero; total_current := zero;
             total_profit := zero; total_pct := zero;
             total_trend := Even; lines := [] |}).
Proof.
  apply (X15_portfolio_total_outage Scenario.outage 42 Cases.book).
  - vm_compute. discriminate.
  - vm_compute. repeat constructor.
Defined.

(** X16. A what-if never changes the stored positions or the market-cap
    cache, reads the clock at most once, changes no price-cache entry
    other than the one of the uppercased symbol, and sends at most six
    requests.  When the historical price is unavailable it stops there:
    the price cache and the clock are untouched and at most two requests
    were sent. *)
Theorem X16_what_if_footprint (P : provider) (symbol : string) (usd_amount : float)
    (date_str : string) (w : world) :
  let w' := snd (calc_what_if_date P symbol usd_amount date_str w) in
  POSITIONS_FILE w' = POSITIONS_FILE w /\ MCAP_CACHE w' = MCAP_CACHE w /\
  (clock_reads w' <= S (clock_reads w))%nat /\
  (forall k, k ≠ upper symbol -> PRICE_CACHE w' !! k = PRICE_CACHE w !! k) /\
  (exists new, requests w' = requests w ++ new /\ (length new <= 6)%nat) /\
  (fst (get_historical_price_usd P symbol date_str w) = None ->
     PRICE_CACHE w' = PRICE_CACHE w /\ clock_reads w' = clock_reads w /\
     exists new, requests w' = requests w ++ new /\ (length new <= 2)%nat).
Proof.
  intros w'. subst w'. rewrite calc_what_if_date_unfold. cbv zeta.
  destruct (historical_footprint P symbol date_str w)
    as (Hp1 & Hm1 & Hf1 & Hc1 & new1 & Hr1 & Hl1).
  set (w1 := snd (get_historical_price_usd P symbol date_str w)) in *.
  destruct (price_lookup_footprint P symbol w1)
    as (Hm2 & Hf2 & Hc2 & Hk2 & new2 & Hr2 & Hl2 & _).
  set (w2 := snd (get_current_price_usd P symbol w1)) in *.
  destruct (token_name_footprint P symbol w2)
    as (Hp3 & Hm3 & Hf3 & Hc3 & new3 & Hr3 & Hl3).
  set (w3 := snd (get_token_name P symbol w2)) in *.
  cbv zeta in *.
  assert (H1 : POSITIONS_FILE w1 = POSITIONS_FILE w /\ MCAP_CACHE w1 = MCAP_CACHE w /\
               (clock_reads w1 <= S (clock_reads w))%nat /\
               (forall k, k ≠ upper symbol ->
                          PRICE_CACHE w1 !! k = PRICE_CACHE w !! k) /\
               (exists new, requests w1 = requests w ++ new /\ (length new <= 6)%nat)).
  { split; [exact Hf1|]. split; [exact Hm1|]. split; [lia|].
    split; [intros k _; rewrite Hp1; reflexivity|].
    exists new1. split; [exact Hr1|lia]. }
  assert (H2 : POSITIONS_FILE w2 = POSITIONS_FILE w /\ MCAP_CACHE w2 = MCAP_CACHE w /\
               (clock_reads w2 <= S (clock_reads w))%nat /\
               (forall k, k ≠ upper symbol ->
                          PRICE_CACHE w2 !! k = PRICE_CACHE w !! k) /\
               (exists new, requests w2 = requests w ++ new /\ (length new <= 6)%nat)).
  { split; [congruence|]. split; [congruence|]. split; [lia|].
    split; [intros k Hk; rewrite (Hk2 k Hk), Hp1; reflexivity|].
    exists (new1 ++ new2). rewrite Hr2, Hr1, <- app_assoc.
    split; [reflexivity|]. rewrite length_app. lia. }
  assert (H3 : POSITIONS_FILE w3 = POSITIONS_FILE w /\ MCAP_CACHE w3 = MCAP_CACHE w /\
               (clock_reads w3 <= S (clock_reads w))%nat /\
               (forall k, k ≠ upper symbol ->
                          PRICE_CACHE w3 !! k = PRICE_CACHE w !! k) /\
               (exists new, requests w3 = requests w ++ new /\ (length new <= 6)%nat)).
  { split; [congruence|]. split; [congruence|]. split; [lia|].
    split; [intros k Hk; rewrite Hp3, (Hk2 k Hk), Hp1; reflexivity|].
    exists (new1 ++ new2 ++ new3). rewrite Hr3, Hr2, Hr1, <- !app_assoc.
    split; [reflexivity|]. rewrite !length_app. lia. }
  destruct (fst (get_historical_price_usd P symbol date_str w)) as [bp|].
  - destruct (fst (get_current_price_usd P symbol w1)) as [cp|];
      [destruct (is_zero bp)|]; cbn [snd];
      (destruct H2 as (? & ? & ? & ? & ?); destruct H3 as (? & ? & ? & ? & ?);
       repeat split; try assumption; discriminate).
  - cbn [snd]. destruct H1 as (? & ? & ? & ? & ?).
    repeat split; try assumption. exists new1. split; assumption.
Qed.

(** ** Degen score: consequences of the tiers *)

Section DegenMore.

Lemma abs_neg (c : float) : abs (neg c) = abs c.
Proof. destruct c; reflexivity. Qed.

Lemma label_matches_rounded_score (t : Z) :
  10 <= t <= 100 -> label_of_score (dec t 10) = label_of_tenths t.
Proof.
  intros Ht.
  assert (Hall : forallb (fun a =>
            match label_of_score (dec a 10), label_of_tenths a with
            | BlueChip, BlueChip | LargeCap, LargeCap | MidCap, MidCap
            | Microcap, Microcap | MemePit, MemePit => true
            | _, _ => false
            end) tenths_range = true) by (vm_compute; reflexivity).
  rewrite forallb_forall in Hall.
  specialize (Hall t (tenths_range_spec t Ht)).
  destruct (label_of_score (dec t 10)), (label_of_tenths t);
    try reflexivity; discriminate.
Qed.

Lemma below_5M_tier (m : float) :
  ltb m (of_Z 5000000) = true \/ m = S754_nan -> mcap_tier m = 10.
Proof.
  intros [Hlt | ->]; [|reflexivity].
  unfold mcap_tier.
  repeat match goal with
  | |- context [if leb ?c m then _ else _] =>
      let H := fresh "H" in
      destruct (leb c m) eqn:H;
      [pose proof (leb_ltb_trans _ _ _ H Hlt) as Hc; vm_compute in Hc;
       discriminate Hc|]
  end.
  reflexivity.
Qed.

End DegenMore.

(** X17. Only the magnitude of the 24h change enters the degen score: a
    change and its negation give the same score and label. *)
Theorem X17_degen_score_sign_symmetric (mcap : option float) (c : float) :
  degen_score mcap (Some (neg c)) = degen_score mcap (Some c).
Proof.
  destruct mcap as [m|]; [|reflexivity].
  unfold degen_score. rewrite abs_neg. reflexivity.
Qed.

(** X18. The label agrees with the score that is returned: although the
    label is chosen before the score is rounded to one decimal, applying
    the thresholds 2, 4, 6 and 8 to the rounded score gives the same
    label, for every market cap and change. *)
Theorem X18_degen_label_matches_returned_score (m : float) (change : option float) :
  exists d,
    degen_score (Some m) change = Some d /\
    label d = label_of_score (score d).
Proof.
  exists (degen_spec m change). split; [apply degen_score_table|].
  cbn [degen_spec label score]. symmetry.
  apply label_matches_rounded_score, blend_tenths_range.
Qed.

(** X19. With the 24h change unknown, as in the what-if report, the score
    depends on the market-cap tier alone: 3.0 large-cap from 10B, 4.2 and
    5.4 mid-cap from 1B and 200M, 6.6 and 7.2 microcap from 50M and 5M,
    8.4 meme/degen below; the blue-chip label is never given. *)
Theorem X19_degen_score_unknown_change (m : float) :
  exists d,
    degen_score (Some m) None = Some d /\
    score d = dec (6 * mcap_tier m + 24) 10 /\
    label d = (if mcap_tier m =? 1 then LargeCap
               else if mcap_tier m <=? 5 then MidCap
               else if mcap_tier m <=? 8 then Microcap
               else MemePit) /\
    label d ≠ BlueChip.
Proof.
  exists (degen_spec m None). split; [apply degen_score_table|].
  cbn [degen_spec label score]. unfold blend_tenths, vol_tier.
  pose proof (mcap_tier_cases m) as Hm. simpl in Hm.
  destruct Hm as [H|[H|[H|[H|[H|[H|[]]]]]]];
    rewrite <- H; repeat split; discriminate.
Qed.

(** X20. A market cap below 5M, which includes zero and negative values,
    and a market cap that is not a number both fall in the riskiest
    market-cap tier: the score is at least 6.8 and the label is microcap
    or meme/degen whatever the change. *)
Theorem X20_degen_score_small_or_nan_cap (m : float) (change : option float) :
  ltb m (of_Z 5000000) = true \/ m = S754_nan ->
  exists d,
    degen_score (Some m) change = Some d /\
    leb (dec 68 10) (score d) = true /\
    (label d = Microcap \/ label d = MemePit).
Proof.
  intros Hm. exists (degen_spec m change). split; [apply degen_score_table|].
  cbn [degen_spec label score]. unfold blend_tenths.
  rewrite (below_5M_tier m Hm).
  pose proof (vol_tier_cases change) as Hv. simpl in Hv.
  destruct Hv as [H|[H|[H|[H|[H|[]]]]]];
    rewrite <- H; split; try (vm_compute; reflexivity); auto.
Qed.

Lemma X20_degen_score_small_or_nan_cap_witness :
  (exists d,
     degen_score (Some (of_Z (-3))) (Some (of_Z 1)) = Some d /\
     leb (dec 68 10) (score d) = true /\
     (label d = Microcap \/ label d = MemePit)) /\
  (exists d,
     degen_score (Some S754_nan) None = Some d /\
     leb (dec 68 10) (score d) = true /\
     (label d = Microcap \/ label d = MemePit)).
Proof.
  split.
  - apply X20_degen_score_small_or_nan_cap. left. vm_compute. reflexivity.
  - apply X20_degen_score_small_or_nan_cap. right. reflexivity.
Defined.

(** ** Market-cap abbreviation *)

Section FormatFacts.

Lemma Z_range_spec (lo count n : Z) :
  lo <= n < lo + count -> In n (Z_range lo count).
Proof.
  intros Hn. unfold Z_range. apply in_map_iff.
  exists (Z.to_nat (n - lo)). split; [lia|]. apply in_seq. lia.
Qed.

Lemma checked_on_range (f : Z -> bool) (lo count : Z) :
  forallb f (Z_range lo count) = true ->
  forall n, lo <= n < lo + count -> f n = true.
Proof.
  intros Hall n Hn. rewrite forallb_forall in Hall.
  apply Hall, Z_range_spec, Hn.
Qed.

End FormatFacts.

(** X21. Whole amounts print exactly.  A whole number of dollars below
    1000 prints as its digits after the dollar sign; a whole number of
    tenths of a thousand, of a million or of a billion, from 1.0 up to
    99.9 of the unit, prints as that decimal with the unit letter K, M or
    B. *)
Theorem X21_format_mcap_exact_amounts (n : Z) :
  (0 <= n < 1000 ->
     format_mcap (Some (of_Z n)) = "$" +:+ digits n) /\
  (10 <= n < 1000 ->
     format_mcap (Some (of_Z (100 * n))) = "$" +:+ one_decimal n +:+ "K" /\
     format_mcap (Some (of_Z (100000 * n))) = "$" +:+ one_decimal n +:+ "M" /\
     format_mcap (Some (of_Z (100000000 * n))) = "$" +:+ one_decimal n +:+ "B").
Proof.
  split.
  - intros Hn. apply String.eqb_eq.
    apply (checked_on_range
             (fun n => String.eqb (format_mcap (Some (of_Z n))) ("$" +:+ digits n))
             0 1000); [vm_compute; reflexivity | lia].
  - intros Hn. repeat split; apply String.eqb_eq.
    + apply (checked_on_range
               (fun n => String.eqb (format_mcap (Some (of_Z (100 * n))))
                           ("$" +:+ one_decimal n +:+ "K"))
               10 990); [vm_compute; reflexivity | lia].
    + apply (checked_on_range
               (fun n => String.eqb (format_mcap (Some (of_Z (100000 * n))))
                           ("$" +:+ one_decimal n +:+ "M"))
               10 990); [vm_compute; reflexivity | lia].
    + apply (checked_on_range
               (fun n => String.eqb (format_mcap (Some (of_Z (100000000 * n))))
                           ("$" +:+ one_decimal n +:+ "B"))
               10 990); [vm_compute; reflexivity | lia].
Qed.

Lemma X21_format_mcap_exact_amounts_witness :
  format_mcap (Some (of_Z 999)) = "$999"%string /\
  format_mcap (Some (of_Z 1500)) = "$1.5K"%string /\
  format_mcap (Some (of_Z 2500000)) = "$2.5M"%string /\
  format_mcap (Some (of_Z 7000000000)) = "$7.0B"%string.
Proof.
  split; [|split; [|split]].
  - rewrite (proj1 (X21_format_mcap_exact_amounts 999) ltac:(lia)).
    vm_compute. reflexivity.
  - destruct (proj2 (X21_format_mcap_exact_amounts 15) ltac:(lia)) as (H & _ & _).
    etransitivity; [exact H|]. vm_compute. reflexivity.
  - destruct (proj2 (X21_format_mcap_exact_amounts 25) ltac:(lia)) as (_ & H & _).
    etransitivity; [exact H|]. vm_compute. reflexivity.
  - destruct (proj2 (X21_format_mcap_exact_amounts 70) ltac:(lia)) as (_ & _ & H).
    etransitivity; [exact H|]. vm_compute. reflexivity.
Defined.

(** X22. The unit is chosen before the number is rounded, so amounts just
    under the next unit print as 1000 of the smaller one: every whole
    amount from 999,950 to 999,999 prints as "$1000.0K" and every whole
    number of thousands from 999,950,000 to 999,999,000 as "$1000.0M"; an
    unknown market cap prints as "N/A". *)
Theorem X22_format_mcap_rounds_within_unit (n : Z) :
  999950 <= n < 1000000 ->
  format_mcap (Some (of_Z n)) = "$1000.0K"%string /\
  format_mcap (Some (of_Z (1000 * n))) = "$1000.0M"%string /\
  format_mcap None = "N/A"%string.
Proof.
  intros Hn. split; [|split; [|reflexivity]]; apply String.eqb_eq.
  - apply (checked_on_range
             (fun n => String.eqb (format_mcap (Some (of_Z n))) "$1000.0K")
             999950 50); [vm_compute; reflexivity | lia].
  - apply (checked_on_range
             (fun n => String.eqb (format_mcap (Some (of_Z (1000 * n)))) "$1000.0M")
             999950 50); [vm_compute; reflexivity | lia].
Qed.

Lemma X22_format_mcap_rounds_within_unit_witness :
  format_mcap (Some (of_Z 999950)) = "$1000.0K"%string /\
  format_mcap (Some (of_Z (1000 * 999999))) = "$1000.0M"%string /\
  format_mcap None = "N/A"%string.
Proof.
  split; [|split].
  - apply (X22_format_mcap_rounds_within_unit 999950). lia.
  - apply (X22_format_mcap_rounds_within_unit 999999). lia.
  - apply (X22_format_mcap_rounds_within_unit 999950). lia.
Defined.

(** ** Lookups under different spellings *)

Section SpellingInvariance.

Variable P : provider.

Lemma same_upper_same_normal_form (s1 s2 : string) :
  upper s1 = upper s2 -> strip (lower s1) = strip (lower s2).
Proof.
  intros H. rewrite <- (lower_upper s1), <- (lower_upper s2), H. reflexivity.
Qed.

Lemma resolve_same_upper (s1 s2 : string) (w : world) :
  upper s1 = upper s2 -> resolve_token_id P s1 w = resolve_token_id P s2 w.
Proof. intros H. apply resolve_same_normal_form, same_upper_same_normal_form, H. Qed.

Lemma price_lookup_same_upper (s1 s2 : string) (w : world) :
  upper s1 = upper s2 ->
  get_current_price_usd P s1 w = get_current_price_usd P s2 w.
Proof.
  intros H. rewrite !get_current_price_usd_unfold. cbv zeta. unfold refresh_price.
  rewrite H, (resolve_same_upper s1 s2 (tick w) H). reflexivity.
Qed.

Lemma mcap_lookup_same_upper (s1 s2 : string) (w : world) :
  upper s1 = upper s2 ->
  get_token_market_cap P s1 w = get_token_market_cap P s2 w.
Proof.
  intros H. rewrite !get_token_market_cap_unfold. cbv zeta. unfold refresh_mcap.
  rewrite H, (resolve_same_upper s1 s2 (tick w) H). reflexivity.
Qed.

Lemma historical_same_upper (s1 s2 date_str : string) (w : world) :
  upper s1 = upper s2 ->
  get_historical_price_usd P s1 date_str w = get_historical_price_usd P s2 date_str w.
Proof.
  intros H. rewrite !get_historical_price_usd_unfold. cbv zeta.
  rewrite (resolve_same_upper s1 s2 w H). reflexivity.
Qed.

Lemma token_name_same_upper (s1 s2 : string) (w : world) :
  upper s1 = upper s2 -> get_token_name P s1 w = get_token_name P s2 w.
Proof.
  intros H. rewrite !get_token_name_unfold. cbv zeta.
  rewrite (resolve_same_upper s1 s2 w H). reflexivity.
Qed.

End SpellingInvariance.

(** X23. The four lookups do not depend on the letter case of an ASCII
    symbol: two spellings with the same uppercased form give the same
    current price, market cap, historical price and token name and leave
    the same world, cache entries included. *)
Theorem X23_lookups_ignore_case (P : provider) (s1 s2 date_str : string) (w : world) :
  upper s1 = upper s2 ->
  get_current_price_usd P s1 w = get_current_price_usd P s2 w /\
  get_token_market_cap P s1 w = get_token_market_cap P s2 w /\
  get_historical_price_usd P s1 date_str w
    = get_historical_price_usd P s2 date_str w /\
  get_token_name P s1 w = get_token_name P s2 w.
Proof.
  intros H. split; [|split; [|split]].
  - apply price_lookup_same_upper, H.
  - apply mcap_lookup_same_upper, H.
  - apply historical_same_upper, H.
  - apply token_name_same_upper, H.
Qed.

Lemma X23_lookups_ignore_case_witness :
  get_current_price_usd Cases.patchy "Eth" Scenario.w0
    = get_current_price_usd Cases.patchy "eTH" Scenario.w0 /\
  get_token_market_cap Cases.patchy "Eth" Scenario.w0
    = get_token_market_cap Cases.patchy "eTH" Scenario.w0 /\
  get_historical_price_usd Cases.patchy "Eth" "2023-01-01" Scenario.w0
    = get_historical_price_usd Cases.patchy "eTH" "2023-01-01" Scenario.w0 /\
  get_token_name Cases.patchy "Eth" Scenario.w0
    = get_token_name Cases.patchy "eTH" Scenario.w0.
Proof.
  apply (X23_lookups_ignore_case Cases.patchy "Eth" "eTH" "2023-01-01" Scenario.w0).
  vm_compute. reflexivity.
Defined.

(** ** The what-if command *)

Section WhatIfCommand.

Variable P : provider.
Variable float_of_string : string -> option float.

Lemma what_if_frame (symbol : string) (usd_amount : float) (date_str : string)
    (w : world) :
  let out := calc_what_if_date P symbol usd_amount date_str w in
  POSITIONS_FILE (snd out) = POSITIONS_FILE w /\
  MCAP_CACHE (snd out) = MCAP_CACHE w /\
  (clock_reads (snd out) <= S (clock_reads w))%nat /\
  (forall res, fst out = Ok (Some res) ->
     clock_reads (snd out) = S (clock_reads w) /\ wi_symbol res = upper symbol).
Proof.
  rewrite calc_what_if_date_unfold. cbv zeta.
  destruct (historical_footprint P symbol date_str w)
    as (_ & Hm1 & Hf1 & Hc1 & _).
  set (w1 := snd (get_historical_price_usd P symbol date_str w)) in *.
  destruct (price_lookup_footprint P symbol w1) as (Hm2 & Hf2 & Hc2 & _).
  set (w2 := snd (get_current_price_usd P symbol w1)) in *.
  destruct (token_name_footprint P symbol w2) as (_ & Hm3 & Hf3 & Hc3 & _).
  set (w3 := snd (get_token_name P symbol w2)) in *.
  cbv zeta in *.
  destruct (fst (get_historical_price_usd P symbol date_str w)) as [bp|].
  - destruct (fst (get_current_price_usd P symbol w1)) as [cp|];
      [destruct (is_zero bp)|]; cbn [fst snd].
    + split; [congruence|]. split; [congruence|]. split; [lia|]. discriminate.
    + split; [congruence|]. split; [congruence|]. split; [lia|].
      intros res Hres. split; [lia|].
      assert (res = what_if_of symbol usd_amount date_str bp cp
                      (fst (get_token_name P symbol w2))) as -> by congruence.
      reflexivity.
    + split; [congruence|]. split; [congruence|]. split; [lia|]. discriminate.
  - cbn [fst snd]. split; [exact Hf1|]. split; [exact Hm1|]. split; [lia|].
    discriminate.
Qed.

Lemma whatifdate_unfold (symbol amount_text date_str : string) (w : world) :
  whatifdate P float_of_string [symbol; amount_text; date_str] w =
    match float_of_string amount_text with
    | None => (Ok WhatIfNotNumber, w)
    | Some usd_amount =>
        match to_cg_date P date_str with
        | None => (Ok WhatIfBadDate, w)
        | Some _ =>
            let c := calc_what_if_date P symbol usd_amount date_str w in
            match fst c with
            | Raise e => (Raise e, snd c)
            | Ok None => (Ok WhatIfUnavailable, snd c)
            | Ok (Some res) =>
                let m := get_token_market_cap P (wi_symbol res) (snd c) in
                (Ok (WhatIfReport res (fst m) (format_mcap (fst m))
                       (degen_score (fst m) None)
                       (trend_of (wi_profit_abs res))), snd m)
            end
        end
    end.
Proof.
  unfold whatifdate.
  destruct (float_of_string amount_text) as [x|]; [|reflexivity].
  destruct (to_cg_date P date_str) as [cg|]; [|reflexivity].
  unfold bindM at 1. cbv zeta.
  destruct (calc_what_if_date P symbol x date_str w) as [[[res|]|e] w1];
    cbn [fst snd]; try reflexivity.
  unfold bindM, lift, retM.
  destruct (get_token_market_cap P (wi_symbol res) w1) as [m w2]. reflexivity.
Qed.

Lemma unknown_change_never_blue_chip (mcap : option float) (d : DegenScore) :
  degen_score mcap None = Some d -> label d ≠ BlueChip.
Proof.
  destruct mcap as [m|]; [|discriminate].
  rewrite degen_score_table. intros Hd.
  assert (d = degen_spec m None) as -> by congruence.
  cbn [degen_spec label]. unfold blend_tenths, vol_tier.
  pose proof (mcap_tier_cases m) as Hm. simpl in Hm.
  destruct Hm as [H|[H|[H|[H|[H|[H|[]]]]]]]; rewrite <- H; discriminate.
Qed.

Lemma historical_sends_no_mcap_fetch (symbol date_str : string) (w : world) :
  exists new,
    requests (snd (get_historical_price_usd P symbol date_str w))
      = requests w ++ new /\
    Forall (fun q => is_mcap_fetch q = false) new.
Proof.
  rewrite get_historical_price_usd_unfold. cbv zeta.
  destruct (resolve_requests P symbol w) as (new & Hr & Hnew).
  destruct (usable _) as [id|]; [destruct (to_cg_date P date_str) as [cg|]|];
    cbn [snd requests sent].
  - exists (new ++ [History id cg]). rewrite Hr, <- app_assoc.
    split; [reflexivity|].
    destruct Hnew as [-> | ->]; repeat constructor.
  - exists new. split; [exact Hr|]. destruct Hnew as [-> | ->]; repeat constructor.
  - exists new. split; [exact Hr|]. destruct Hnew as [-> | ->]; repeat constructor.
Qed.

Lemma price_lookup_sends_no_mcap_fetch (symbol : string) (w : world) :
  exists new,
    requests (snd (get_current_price_usd P symbol w)) = requests w ++ new /\
    Forall (fun q => is_mcap_fetch q = false) new.
Proof.
  destruct (price_lookup_footprint P symbol w)
    as (_ & _ & _ & _ & new & Hr & _ & Hkind).
  exists new. split; [exact Hr|].
  eapply Forall_impl; [exact Hkind|].
  intros [q|id|id d|id|id]; cbn; intros H; try reflexivity; discriminate H.
Qed.

Lemma token_name_sends_no_mcap_fetch (symbol : string) (w : world) :
  exists new,
    requests (snd (get_token_name P symbol w)) = requests w ++ new /\
    Forall (fun q => is_mcap_fetch q = false) new.
Proof.
  rewrite get_token_name_unfold. cbv zeta.
  destruct (resolve_requests P symbol w) as (new & Hr & Hnew).
  destruct (usable _) as [id|]; cbn [snd requests sent].
  - exists (new ++ [CoinInfo id]). rewrite Hr, <- app_assoc.
    split; [reflexivity|].
    destruct Hnew as [-> | ->]; repeat constructor.
  - exists new. split; [exact Hr|]. destruct Hnew as [-> | ->]; repeat constructor.
Qed.

Lemma what_if_sends_no_mcap_fetch (symbol : string) (usd_amount : float)
    (date_str : string) (w : world) :
  count_fetches is_mcap_fetch
    (issued w (snd (calc_what_if_date P symbol usd_amount date_str w))) = 0%nat.
Proof.
  assert (Hnone : forall new,
            Forall (fun q => is_mcap_fetch q = false) new ->
            count_fetches is_mcap_fetch new = 0%nat).
  { induction new as [|q new IH]; intros Hall; [reflexivity|].
    inversion Hall as [|? ? Hq Hrest]; subst.
    unfold count_fetches in *. cbn [List.filter]. rewrite Hq. apply IH, Hrest. }
  rewrite calc_what_if_date_unfold. cbv zeta.
  destruct (historical_sends_no_mcap_fetch symbol date_str w) as (n1 & Hr1 & Hk1).
  set (w1 := snd (get_historical_price_usd P symbol date_str w)) in *.
  destruct (price_lookup_sends_no_mcap_fetch symbol w1) as (n2 & Hr2 & Hk2).
  set (w2 := snd (get_current_price_usd P symbol w1)) in *.
  destruct (token_name_sends_no_mcap_fetch symbol w2) as (n3 & Hr3 & Hk3).
  set (w3 := snd (get_token_name P symbol w2)) in *.
  assert (H1 : count_fetches is_mcap_fetch (issued w w1) = 0%nat).
  { rewrite (issued_app w w1 n1 Hr1). apply Hnone, Hk1. }
  assert (H2 : count_fetches is_mcap_fetch (issued w w2) = 0%nat).
  { rewrite (issued_app w w2 (n1 ++ n2)).
    - apply Hnone, Forall_app. split; assumption.
    - rewrite Hr2, Hr1, <- app_assoc. reflexivity. }
  assert (H3 : count_fetches is_mcap_fetch (issued w w3) = 0%nat).
  { rewrite (issued_app w w3 (n1 ++ n2 ++ n3)).
    - apply Hnone, Forall_app. split; [assumption|].
      apply Forall_app. split; assumption.
    - rewrite Hr3, Hr2, Hr1, <- !app_assoc. reflexivity. }
  destruct (fst (get_historical_price_usd P symbol date_str w)) as [bp|];
    [|exact H1].
  destruct (fst (get_current_price_usd P symbol w1)) as [cp|]; [|exact H2].
  destruct (is_zero bp); [exact H2 | exact H3].
Qed.

End WhatIfCommand.

(** X24. The what-if command answers a malformed request without doing
    anything: the usage text is the reply exactly when the number of
    arguments is not three, and whenever the reply is the usage text, the
    not-a-number text or the bad-date text, no clock was read, no request
    was sent and no cache or file changed.  When prices are unavailable
    the market cap is not looked up: the command ends in the very world
    the price computation left, so nothing was done after it, no
    market-cap request was sent since the command began, and the
    market-cap cache is as it was.  No outcome of the command, a raised
    error included, changes the positions file. *)
Theorem X24_whatifdate_rejects_without_effects (P : provider)
    (float_of_string : string -> option float) (args : list string) (w : world) :
  let out := whatifdate P float_of_string args w in
  (fst out = Ok WhatIfUsage <-> length args ≠ 3%nat) /\
  (fst out = Ok WhatIfUsage \/ fst out = Ok WhatIfNotNumber \/
   fst out = Ok WhatIfBadDate -> snd out = w) /\
  (fst out = Ok WhatIfUnavailable ->
     (exists symbol amount_text date_str usd_amount,
        args = [symbol; amount_text; date_str] /\
        float_of_string amount_text = Some usd_amount /\
        calc_what_if_date P symbol usd_amount date_str w = (Ok None, snd out)) /\
     count_fetches is_mcap_fetch (issued w (snd out)) = 0%nat /\
     MCAP_CACHE (snd out) = MCAP_CACHE w /\
     (clock_reads (snd out) <= S (clock_reads w))%nat) /\
  POSITIONS_FILE (snd out) = POSITIONS_FILE w.
Proof.
  intros out. subst out.
  destruct args as [|symbol [|amount_text [|date_str [|extra args]]]];
    try (cbn [whatifdate retM fst snd length];
         split; [split; [intros _; lia | reflexivity]|];
         split; [reflexivity|]; split; [discriminate | reflexivity]).
  rewrite whatifdate_unfold.
  destruct (float_of_string amount_text) as [x|] eqn:Hparse;
    [destruct (to_cg_date P date_str) as [cg|]|];
    try (cbn [fst snd length];
         split; [split; [discriminate | intros H; exfalso; apply H; reflexivity]|];
         split; [reflexivity|]; split; [discriminate | reflexivity]).
  cbv zeta.
  destruct (what_if_frame P symbol x date_str w) as (Hf & Hm & Hc & Hres).
  pose proof (what_if_sends_no_mcap_fetch P symbol x date_str w) as Hnone.
  cbv zeta in *.
  destruct (calc_what_if_date P symbol x date_str w) as [[[res|]|e] w1] eqn:Hcalc;
    cbn [fst snd length] in *.
  - destruct (mcap_lookup_footprint P (wi_symbol res) w1) as (_ & Hf2 & _).
    cbv zeta in Hf2.
    split; [split; [discriminate | intros H; exfalso; apply H; reflexivity]|].
    split; [intros [H | [H | H]]; discriminate H|].
    split; [discriminate | congruence].
  - split; [split; [discriminate | intros H; exfalso; apply H; reflexivity]|].
    split; [intros [H | [H | H]]; discriminate H|].
    split; [|exact Hf].
    intros _. split; [|split; [exact Hnone | split; [exact Hm | exact Hc]]].
    exists symbol, amount_text, date_str, x.
    split; [reflexivity|]. split; [exact Hparse | exact Hcalc].
  - split; [split; [discriminate | intros H; exfalso; apply H; reflexivity]|].
    split; [intros [H | [H | H]]; discriminate H|].
    split; [discriminate | exact Hf].
Qed.

(** X25. A what-if report shows the market cap of the uppercased symbol,
    looked up after the prices, as [format_mcap] prints it, and the degen
    score of that market cap with the 24h change unknown: the score is
    absent exactly when the market cap is, and its label is never
    blue-chip.  The trend mark follows the sign of the profit.  Producing
    the report reads the clock exactly twice. *)
Theorem X25_whatifdate_report (P : provider)
    (float_of_string : string -> option float)
    (symbol amount_text date_str : string) (w w' : world)
    (res : WhatIfResult) (mcap : option float) (mcap_text : string)
    (d : option DegenScore) (t : trend) :
  whatifdate P float_of_string [symbol; amount_text; date_str] w
    = (Ok (WhatIfReport res mcap mcap_text d t), w') ->
  exists usd_amount w1,
    float_of_string amount_text = Some usd_amount /\
    calc_what_if_date P symbol usd_amount date_str w = (Ok (Some res), w1) /\
    get_token_market_cap P (upper symbol) w1 = (mcap, w') /\
    mcap_text = format_mcap mcap /\
    d = degen_score mcap None /\
    (d = None <-> mcap = None) /\
    (forall x, d = Some x -> label x ≠ BlueChip) /\
    t = trend_of (wi_profit_abs res) /\
    clock_reads w' = S (S (clock_reads w)).
Proof.
  rewrite whatifdate_unfold.
  destruct (float_of_string amount_text) as [x|]; [|discriminate].
  destruct (to_cg_date P date_str) as [cg|]; [|discriminate].
  cbv zeta.
  destruct (what_if_frame P symbol x date_str w) as (_ & _ & _ & Hres).
  cbv zeta in Hres.
  destruct (calc_what_if_date P symbol x date_str w) as [[[r|]|e] w1] eqn:Hcalc;
    cbn [fst snd] in *; try discriminate.
  destruct (Hres r eq_refl) as (Hc1 & Hsym).
  pose proof (mcap_lookup_footprint P (wi_symbol r) w1) as (_ & _ & Hc2 & _).
  cbv zeta in Hc2.
  destruct (get_token_market_cap P (wi_symbol r) w1) as [m w2] eqn:Hm.
  cbn [fst snd] in *. intros Hrun.
  assert (Hreply : WhatIfReport r m (format_mcap m) (degen_score m None)
                     (trend_of (wi_profit_abs r))
                   = WhatIfReport res mcap mcap_text d t) by congruence.
  assert (w2 = w') as -> by congruence.
  assert (r = res) as -> by congruence.
  assert (m = mcap) as -> by congruence.
  assert (Htext : mcap_text = format_mcap mcap) by congruence.
  assert (Hd : d = degen_score mcap None) by congruence.
  assert (Ht : t = trend_of (wi_profit_abs res)) by congruence.
  exists x, w1. split; [reflexivity|]. split; [exact Hcalc|].
  split; [rewrite <- Hsym; exact Hm|].
  split; [exact Htext|]. split; [exact Hd|].
  split; [|split; [|split; [exact Ht | lia]]].
  - rewrite Hd. destruct mcap as [v|]; [|split; reflexivity].
    rewrite degen_score_table. split; discriminate.
  - intros y Hy. apply (unknown_change_never_blue_chip mcap). congruence.
Qed.

Lemma X25_whatifdate_report_witness :
  exists usd_amount w1,
    Some (of_Z 1000) = Some usd_amount /\
    calc_what_if_date Cases.patchy "btc" usd_amount "2023-01-01" Scenario.w0
      = (Ok (Some (what_if_of "btc" (of_Z 1000) "2023-01-01" (of_Z 10) (of_Z 30000)
                     (Some "Bitcoin"%string))), w1) /\
    get_token_market_cap Cases.patchy (upper "btc") w1
      = (Some (of_Z 900000000),
         snd (whatifdate Cases.patchy (fun _ => Some (of_Z 1000))
                ["btc"; "1000"; "2023-01-01"]%string Scenario.w0)) /\
    "$900.0M"%string = format_mcap (Some (of_Z 900000000)) /\
    Some {| score := dec 54 10; label := MidCap |}
      = degen_score (Some (of_Z 900000000)) None /\
    (Some {| score := dec 54 10; label := MidCap |} = None
       <-> Some (of_Z 900000000) = None) /\
    (forall x, Some {| score := dec 54 10; label := MidCap |} = Some x ->
               label x ≠ BlueChip) /\
    Gain = trend_of (wi_profit_abs
                     (what_if_of "btc" (of_Z 1000) "2023-01-01" (of_Z 10)
                        (of_Z 30000) (Some "Bitcoin"%string))) /\
    clock_reads (snd (whatifdate Cases.patchy (fun _ => Some (of_Z 1000))
                        ["btc"; "1000"; "2023-01-01"]%string Scenario.w0))
      = S (S (clock_reads Scenario.w0)).
Proof.
  apply (X25_whatifdate_report Cases.patchy (fun _ => Some (of_Z 1000))
           "btc" "1000" "2023-01-01" Scenario.w0).
  vm_compute. reflexivity.
Defined.

(** ** The add-position command *)

(** X26. The add-position command writes to the store only when it
    answers Saved, and it answers Saved exactly for three arguments whose
    two numbers parse from a known user; no range is checked, so zero,
    negative and not-a-number amounts and prices are stored as parsed.
    The saved position, with its symbol uppercased, is then the last one
    of the account.  Every other reply leaves the world as it was, and the
    usage text is the reply exactly when the number of arguments is not
    three. *)
Theorem X26_addpos_saves_or_leaves (float_of_string : string -> option float)
    (args : list string) (user : option Z) (created_at : string) (w : world) :
  let out := addpos float_of_string args user created_at w in
  match fst out with
  | AddSaved amount symbol buy_price =>
      exists s a p user_id,
        args = [s; a; p] /\ user = Some user_id /\
        float_of_string a = Some amount /\ float_of_string p = Some buy_price /\
        symbol = upper s /\
        fst (get_user_positions user_id (snd out))
          = fst (get_user_positions user_id w) ++
            [{| pos_symbol := upper s; pos_amount := amount;
                pos_buy_price := buy_price; pos_created_at := created_at |}]
  | _ => snd out = w
  end /\
  (fst out = AddUsage <-> length args ≠ 3%nat) /\
  (forall s a p user_id amount buy_price,
     args = [s; a; p] -> user = Some user_id ->
     float_of_string a = Some amount -> float_of_string p = Some buy_price ->
     fst out = AddSaved amount (upper s) buy_price).
Proof.
  intros out. subst out.
  destruct args as [|s [|a [|p [|extra args]]]];
    try (cbn [addpos ret fst snd length];
         split; [reflexivity|];
         split; [split; [intros _; lia | reflexivity] | discriminate]).
  cbn [addpos length].
  destruct (float_of_string a) as [amount|] eqn:Ha;
    [destruct (float_of_string p) as [buy_price|] eqn:Hp;
       [destruct user as [user_id|]|]|];
    try (cbn [ret fst snd];
         split; [reflexivity|];
         split; [split; [discriminate | intros H; exfalso; apply H; reflexivity]|];
         intros s' a' p' uid' am bp Hargs Huser Ham Hbp;
         assert (a' = a) as -> by congruence;
         assert (p' = p) as -> by congruence;
         congruence).
  unfold bind, ret.
  destruct (add_user_position user_id s amount buy_price created_at w)
    as [[] w1] eqn:Hadd.
  cbn [fst snd].
  split; [|split].
  - exists s, a, p, user_id. repeat split; try assumption.
    assert (w1 = snd (add_user_position user_id s amount buy_price created_at w))
      as -> by (rewrite Hadd; reflexivity).
    rewrite add_user_position_unfold.
    rewrite get_user_positions_unfold at 1. cbn [fst].
    rewrite load_after_save, lookup_insert_eq. reflexivity.
  - split; [discriminate | intros H; exfalso; apply H; reflexivity].
  - intros s' a' p' uid' am bp Hargs Huser Ham Hbp.
    assert (s' = s) as -> by congruence.
    assert (a' = a) as -> by congruence.
    assert (p' = p) as -> by congruence.
    congruence.
Qed.

(** ** The all-time-high comparison *)

Section AthArithmetic.

Lemma positive_is_not_zero (a : float) : gtb a zero = true -> is_zero a = false.
Proof.
  destruct a as [s | s | | s m e]; try destruct s; vm_compute; congruence.
Qed.

End AthArithmetic.

(** X27. The distance to the all-time high cannot raise on numbers: the
    division runs only for an ATH price above zero.  For an ATH price that
    is zero, negative or not a number the distance is 0.0 and the report
    carries no position line; for one above zero it is
    [(current / ath - 1) * 100]. *)
Theorem X27_ath_distance_is_guarded (ath_price current_price : float) (w : world) :
  exists diff_pct,
    ath_diff_pct (Some ath_price) current_price w = (Ok diff_pct, w) /\
    (gtb ath_price zero = true ->
       diff_pct = mul (sub (div current_price ath_price) (of_Z 1)) (of_Z 100)) /\
    (gtb ath_price zero = false ->
       diff_pct = zero /\ ath_position_of diff_pct = NoPositionLine).
Proof.
  unfold ath_diff_pct.
  destruct (gtb ath_price zero) eqn:Hpos.
  - unfold truthy, py_div, bindM, retM.
    rewrite (positive_is_not_zero ath_price Hpos). cbn [negb andb].
    eexists. split; [reflexivity|]. split; [reflexivity | discriminate].
  - rewrite andb_false_r. unfold retM.
    exists zero. split; [reflexivity|]. split; [discriminate|].
    intros _. split; reflexivity.
Qed.

(** ** The portfolio after a position is added *)

Section FileFrame.

Variable P : provider.

Lemma resolve_file_frame (f : file) (symbol : string) (w : world) :
  resolve_token_id P symbol (set_POSITIONS_FILE f w)
  = (fst (resolve_token_id P symbol w),
     set_POSITIONS_FILE f (snd (resolve_token_id P symbol w))).
Proof.
  rewrite !resolve_token_id_unfold. cbv zeta.
  destruct (CG_MAPPING !! strip (lower symbol)); reflexivity.
Qed.

Lemma price_lookup_file_frame (f : file) (symbol : string) (w : world) :
  get_current_price_usd P symbol (set_POSITIONS_FILE f w)
  = (fst (get_current_price_usd P symbol w),
     set_POSITIONS_FILE f (snd (get_current_price_usd P symbol w))).
Proof.
  rewrite !get_current_price_usd_unfold. cbv zeta. unfold refresh_price.
  change (tick (set_POSITIONS_FILE f w)) with (set_POSITIONS_FILE f (tick w)).
  rewrite resolve_file_frame.
  cbn [fst snd PRICE_CACHE clock_reads requests set_POSITIONS_FILE].
  destruct (PRICE_CACHE w !! upper symbol) as [q|];
    [destruct (ltb _ PRICE_TTL); [reflexivity|]|];
    (destruct (usable _) as [id|]; [|reflexivity];
     destruct (simple_price_usd P _ id); reflexivity).
Qed.

Lemma price_trace_file_frame (f : file) (positions : list position) :
  forall w,
    price_trace P positions (set_POSITIONS_FILE f w)
    = (fst (price_trace P positions w),
       set_POSITIONS_FILE f (snd (price_trace P positions w))).
Proof.
  induction positions as [|pos rest IH]; intros w; [reflexivity|].
  cbn [price_trace]. cbv zeta.
  rewrite price_lookup_file_frame. cbn [fst snd]. rewrite IH. reflexivity.
Qed.

Lemma price_trace_app (l1 l2 : list position) :
  forall w,
    price_trace P (l1 ++ l2) w
    = (fst (price_trace P l1 w) ++ fst (price_trace P l2 (snd (price_trace P l1 w))),
       snd (price_trace P l2 (snd (price_trace P l1 w)))).
Proof.
  induction l1 as [|pos rest IH]; intros w.
  - cbn [app price_trace fst snd]. destruct (price_trace P l2 w). reflexivity.
  - cbn [app price_trace]. cbv zeta. rewrite IH. reflexivity.
Qed.

Lemma priced_lines_app (l1 l2 : list position) :
  forall (idx : nat) (p1 p2 : list (option float)),
    length p1 = length l1 ->
    priced_lines idx (l1 ++ l2) (p1 ++ p2)
    = priced_lines idx l1 p1 ++ priced_lines (idx + length l1) l2 p2.
Proof.
  induction l1 as [|pos rest IH]; intros idx p1 p2 Hlen.
  - destruct p1; [|discriminate]. cbn [app length priced_lines].
    rewrite Nat.add_0_r. destruct l2; reflexivity.
  - destruct p1 as [|[p|] ps]; [discriminate| |];
      cbn [app length priced_lines]; rewrite IH by (cbn in Hlen; lia);
      rewrite Nat.add_succ_r; reflexivity.
Qed.

End FileFrame.

(** X28. Adding a position changes the next portfolio only at its end.
    The positions the account had are priced by the same lookups as
    before, so their lines, numbers included, are the ones the portfolio
    would have shown without the addition; they are followed by the line
    of the new position, numbered after them and priced last, or by
    nothing when its price is unavailable. *)
Theorem X28_portfolio_after_add (P : provider) (user_id : Z) (symbol : string)
    (amount buy_price : float) (created_at : string) (w : world) :
  let held := fst (get_user_positions user_id w) in
  let new := {| pos_symbol := upper symbol; pos_amount := amount;
                pos_buy_price := buy_price; pos_created_at := created_at |} in
  let w1 := snd (add_user_position user_id symbol amount buy_price created_at w) in
  let before := price_trace P held w in
  let last := get_current_price_usd P (upper symbol)
                (set_POSITIONS_FILE (POSITIONS_FILE w1) (snd before)) in
  exists s,
    portfolio P (Some user_id) w1 = (Ok (PortfolioSummary s), snd last) /\
    lines s = priced_lines 1 held (fst before) ++
              match fst last with
              | Some p => [line_of (S (length held)) new p]
              | None => []
              end.
Proof.
  intros held new w1 before last.
  assert (Hheld : fst (get_user_positions user_id w1) = held ++ [new]).
  { subst w1. rewrite add_user_position_unfold.
    rewrite get_user_positions_unfold at 1. cbn [fst].
    rewrite load_after_save, lookup_insert_eq. reflexivity. }
  assert (Hw1 : w1 = set_POSITIONS_FILE (POSITIONS_FILE w1) w).
  { subst w1. rewrite add_user_position_unfold. reflexivity. }
  rewrite portfolio_unfold, Hheld.
  destruct (held ++ [new]) as [|pos0 rest] eqn:Hne;
    [destruct held; discriminate|]. rewrite <- Hne. cbv zeta.
  assert (Htrace : price_trace P (held ++ [new]) w1
                   = (fst before ++ [fst last], snd last)).
  { rewrite price_trace_app. rewrite Hw1 at 1 2 3.
    rewrite price_trace_file_frame. cbn [fst snd price_trace pos_symbol new].
    reflexivity. }
  rewrite Htrace. cbn [fst snd].
  eexists. split; [reflexivity|]. cbn [summary_of lines].
  rewrite priced_lines_app by (apply price_trace_length).
  cbn [Nat.add priced_lines]. destruct (fst last); reflexivity.
Qed.
